(** * dustlang: the AST class generator (generate_ast_classes.py)

    The generator builds Python syntax trees (values of the standard [ast]
    module) that describe the node classes of AST.py and the [ASTVisitor]
    class that visits them.  This development embeds

    - the fragment of Python's [ast] node types the generator constructs
      (module [ast] below);
    - [new_node], [generate_visitor], [file_module] and [main] of
      generate_ast_classes.py, with the module-global set [visitor_names]
      passed explicitly;
    - a small run-time semantics of the generated code: binding of call
      arguments to a function definition's parameters, evaluation of the
      expressions and statements the generator emits, objects on a heap;
    - the checked-in AST.py, as a syntax tree of the same kind.

    The generator writes the tree out as text ([ast.unparse]) and Python
    reads the text back, so what the generated code does depends on the
    names and type texts the tree carries.  The semantics covers names that
    are identifiers, no keywords and do not start with [__] (such names are
    mangled inside a class body, or have a built-in meaning as [__class__]
    has), and type texts of the form [T ::= name | name[T, ..., T]];
    whatever else the tree holds is answered [Unmodelled].  A module is
    loaded as a whole: a definition the compiler rejects makes the import
    fail before any class exists. *)

From stdpp Require Import base option list functions sets gmap strings.

Set Warnings "-register-all,-clear-no-such-hyp".
Open Scope string_scope.
Open Scope list_scope.

(** ** Python syntax trees *)

Module ast.

Inductive expr_context := Load | Store.

(** [ctx] is optional because the generator leaves it out at one place
    (the annotation of [visitor]); keywords are [(arg, value)] pairs, with
    [arg = None] for a [**mapping] argument. *)
Inductive expr :=
| Name (id : string) (ctx : option expr_context)
| Attribute (value : expr) (attr : string) (ctx : expr_context)
| Starred (value : expr) (ctx : expr_context)
| Call (func : expr) (args : list expr) (keywords : list (option string * expr)).

Definition keyword (arg : option string) (value : expr) : option string * expr :=
  (arg, value).

Inductive arg := mk_arg (arg : string) (annotation : option expr).

Definition arg_name (a : arg) : string := let 'mk_arg n _ := a in n.

Record arguments := mk_arguments {
  posonlyargs : list arg;
  args : list arg;
  vararg : option arg;
  kwonlyargs : list arg;
  kw_defaults : list (option expr);
  kwarg : option arg;
  defaults : list expr
}.

Inductive alias := mk_alias (name : string) (asname : option string).

(** Source positions ([lineno]) are attributes, not fields, of a node and
    are left out. *)
Inductive stmt :=
| ImportFrom (module : string) (names : list alias) (level : nat)
| ClassDef (name : string) (bases : list expr)
    (keywords : list (option string * expr)) (body : list stmt)
    (decorator_list : list expr)
| FunctionDef (name : string) (args : arguments) (body : list stmt)
    (decorator_list : list expr) (returns : option expr)
| AnnAssign (target : expr) (annotation : expr) (value : option expr)
    (simple : nat)
| Assign (targets : list expr) (value : expr)
| Return (value : option expr)
| Pass.

Record Module_ := mk_Module {
  body : list stmt;
  type_ignores : list string
}.

(** [module.body.append(s)] *)
Definition body_append (module : Module_) (s : stmt) : Module_ :=
  {| body := body module ++ [s]; type_ignores := type_ignores module |}.

End ast.

Import ast.

(** ** Reading class definitions *)

Definition is_class (s : stmt) : bool :=
  match s with ClassDef _ _ _ _ _ => true | _ => false end.

Definition class_name (c : stmt) : string :=
  match c with ClassDef name _ _ _ _ => name | _ => "" end.

Definition class_bases (c : stmt) : list expr :=
  match c with ClassDef _ bases _ _ _ => bases | _ => [] end.

Definition class_body (c : stmt) : list stmt :=
  match c with ClassDef _ _ _ body _ => body | _ => [] end.

Definition is_def (mname : string) (s : stmt) : bool :=
  match s with
  | FunctionDef n _ _ _ _ => bool_decide (n = mname)
  | _ => false
  end.

(** The function a class body binds to [mname] (the last definition of that
    name wins).  Inherited methods are not looked up. *)
Definition find_method (c : stmt) (mname : string) : option stmt :=
  last (filter (λ s, is_def mname s) (class_body c)).

Definition has_method (mname : string) (c : stmt) : bool :=
  match find_method c mname with Some _ => true | None => false end.

(** The names of the functions a class body defines, in order. *)
Definition method_names (c : stmt) : list string :=
  omap (λ s, match s with FunctionDef n _ _ _ _ => Some n | _ => None end)
       (class_body c).

Definition def_body (fd : stmt) : list stmt :=
  match fd with FunctionDef _ _ body _ _ => body | _ => [] end.

Definition def_decorators (fd : stmt) : list expr :=
  match fd with FunctionDef _ _ _ decorator_list _ => decorator_list | _ => [] end.

Definition def_arguments (fd : stmt) : option arguments :=
  match fd with FunctionDef _ a _ _ _ => Some a | _ => None end.

(** The class definitions of a module, and their names, in order. *)
Definition classes (m : Module_) : list stmt :=
  filter (λ s, is_class s) (body m).

Definition class_names (m : Module_) : list string :=
  class_name <$> classes m.

(** ** The generator *)

(** Python iterates a [set] in an order the language does not specify.  The
    generator is parametrised by that order: any enumeration of the set's
    elements, each once. *)
Class SetOrder := {
  set_iter : gset string → list string;
  set_iter_perm : ∀ s, set_iter s ≡ₚ elements s
}.

#[export] Instance elements_order : SetOrder :=
  {| set_iter := elements; set_iter_perm := λ s, reflexivity _ |}.

(** [visitor_names = set()] at module load. *)
Definition visitor_names_init : gset string := ∅.

(** The signature of [accept]:
    [(self, visitor: ASTVisitor, *args: Any, **kwargs: Any)]. *)
Definition accept_arguments : arguments :=
  {| posonlyargs := [];
     args := [mk_arg "self" None;
              mk_arg "visitor" (Some (Name "ASTVisitor" None))];
     vararg := Some (mk_arg "args" (Some (Name "Any" (Some Load))));
     kwonlyargs := [];
     kw_defaults := [];
     kwarg := Some (mk_arg "kwargs" (Some (Name "Any" (Some Load))));
     defaults := [] |}.

(** [return visitor.visit_<name>(self, *args, **kwargs)] *)
Definition accept_body (name : string) : list stmt :=
  [Return (Some
     (Call (Attribute (Name "visitor" (Some Load)) ("visit_" +:+ name) Load)
           [Name "self" (Some Load);
            Starred (Name "args" (Some Load)) Load]
           [keyword None (Name "kwargs" (Some Load))]))].

Definition accept_def (name : string) (abstract_visit : bool) : stmt :=
  FunctionDef "accept" accept_arguments (accept_body name)
    (if abstract_visit then [Name "abstractmethod" (Some Load)] else [])
    (Some (Name "Any" (Some Load))).

(** The signature of [__init__]: [(self, f1: t1, ..., fk: tk)]. *)
Definition init_arguments (fields : list (string * string)) : arguments :=
  {| posonlyargs := [];
     args := [mk_arg "self" None] ++
             ((λ '(f_name, f_type),
                 mk_arg f_name (Some (Name f_type (Some Load)))) <$> fields);
     vararg := None;
     kwonlyargs := [];
     kw_defaults := [];
     kwarg := None;
     defaults := [] |}.

Definition init_def (fields : list (string * string)) : stmt :=
  FunctionDef "__init__" (init_arguments fields)
    ((λ '(f_name, _),
        Assign [Attribute (Name "self" (Some Store)) f_name Store]
               (Name f_name (Some Load))) <$> fields)
    []
    None.

Definition new_node (module : Module_) (name : string)
    (fields : option (list (string * string))) (parent : string)
    (generate_init abstract_visit generate_visit : bool)
    (visitor_names : gset string) : Module_ * gset string :=
  let fields := default [] fields in
  let body : list stmt :=
    (λ '(f_name, f_type),
       AnnAssign (Name f_name (Some Store)) (Name f_type (Some Load)) None 1)
      <$> fields in
  let visitor_names :=
    if generate_visit then visitor_names ∪ {[name]} else visitor_names in
  let body := if generate_init then body ++ [init_def fields] else body in
  let body :=
    if generate_visit then body ++ [accept_def name abstract_visit] else body in
  (body_append module
     (ClassDef name [Name parent (Some Load)] []
        (match body with [] => [Pass] | _ => body end) []),
   visitor_names).

Definition visit_def (cls : string) : stmt :=
  FunctionDef ("visit_" +:+ cls)
    {| posonlyargs := [];
       args := [mk_arg "self" None;
                mk_arg "node" (Some (Name "AST" (Some Load)))];
       vararg := Some (mk_arg "args" (Some (Name "Any" (Some Load))));
       kwonlyargs := [];
       kw_defaults := [];
       kwarg := Some (mk_arg "kwargs" (Some (Name "Any" (Some Load))));
       defaults := [] |}
    [Pass]
    [Name "abstractmethod" (Some Load)]
    (Some (Name "Any" (Some Load))).

Definition generate_visitor `{SetOrder} (module : Module_)
    (visitor_names : gset string) : Module_ * gset string :=
  (body_append module
     (ClassDef "ASTVisitor" [Name "ABC" (Some Load)] []
        (visit_def <$> set_iter visitor_names) []),
   visitor_names).

Definition file_module : Module_ :=
  {| body :=
       [ImportFrom "__future__" [mk_alias "annotations" None] 0;
        ImportFrom "abc"
          [mk_alias "ABC" None; mk_alias "abstractmethod" None] 0;
        ImportFrom "typing" [mk_alias "Optional" None; mk_alias "Any" None] 0];
     type_ignores := [] |}.

(** [main] on the two module globals it works on, [file_module] and
    [visitor_names].  Writing AST.py and running the formatter are left
    out.  Arguments the source leaves to their defaults are written out:
    [fields=None], [parent="AST"], [generate_init=True],
    [abstract_visit=False], [generate_visit=True]. *)
Definition main `{SetOrder} (file_module : Module_)
    (visitor_names : gset string) : Module_ * gset string :=
  let '(file_module, visitor_names) :=
    new_node file_module "AST" None "ABC" false true true visitor_names in
  let '(file_module, visitor_names) :=
    new_node file_module "Module" (Some [("body", "list[AST]")])
      "AST" true false true visitor_names in
  let '(file_module, visitor_names) :=
    new_node file_module "Block"
      (Some [("label", "Optional[str]"); ("body", "list[AST]")])
      "AST" true false true visitor_names in
  let '(file_module, visitor_names) :=
    new_node file_module "If"
      (Some [("label", "Optional[str]"); ("body", "list[AST]")])
      "AST" true false true visitor_names in
  let '(file_module, visitor_names) :=
    new_node file_module "While"
      (Some [("label", "Optional[str]"); ("body", "list[AST]")])
      "AST" true false true visitor_names in
  let '(file_module, visitor_names) :=
    new_node file_module "Do"
      (Some [("label", "Optional[str]"); ("body", "list[AST]")])
      "AST" true false true visitor_names in
  generate_visitor file_module visitor_names.

(** ** Sequences of calls *)

(** The arguments of one [new_node] call other than the module. *)
Record node_args := mk_node_args {
  a_name : string;
  a_fields : option (list (string * string));
  a_parent : string;
  a_generate_init : bool;
  a_abstract_visit : bool;
  a_generate_visit : bool
}.

Definition new_node_with (st : Module_ * gset string) (a : node_args)
    : Module_ * gset string :=
  new_node st.1 (a_name a) (a_fields a) (a_parent a) (a_generate_init a)
    (a_abstract_visit a) (a_generate_visit a) st.2.

(** The class definition the call appends; it depends on neither the
    module nor the set the call is made on. *)
Definition node_class (a : node_args) : stmt :=
  default Pass
    (last (body (new_node_with ({| body := []; type_ignores := [] |}, ∅) a).1)).

(** The names a list of calls passes with [generate_visit=True]. *)
Definition visit_names (l : list node_args) : list string :=
  a_name <$> filter (λ a, a_generate_visit a) l.

Definition new_nodes (l : list node_args) (st : Module_ * gset string)
    : Module_ * gset string :=
  foldl new_node_with st l.

(** A generation run: the [new_node] calls, then [generate_visitor], all on
    one module. *)
Definition run `{SetOrder} (l : list node_args) (module : Module_)
    (visitor_names : gset string) : Module_ * gset string :=
  let '(module, visitor_names) := new_nodes l (module, visitor_names) in
  generate_visitor module visitor_names.

(** The calls of [main]. *)
Definition main_args : list node_args :=
  [mk_node_args "AST" None "ABC" false true true;
   mk_node_args "Module" (Some [("body", "list[AST]")]) "AST" true false true;
   mk_node_args "Block"
     (Some [("label", "Optional[str]"); ("body", "list[AST]")])
     "AST" true false true;
   mk_node_args "If"
     (Some [("label", "Optional[str]"); ("body", "list[AST]")])
     "AST" true false true;
   mk_node_args "While"
     (Some [("label", "Optional[str]"); ("body", "list[AST]")])
     "AST" true false true;
   mk_node_args "Do"
     (Some [("label", "Optional[str]"); ("body", "list[AST]")])
     "AST" true false true].

(** The kinds whose class definition in [m] has an [accept] method. *)
Definition dispatch_kinds (m : Module_) : list string :=
  class_name <$> filter (λ c, has_method "accept" c) (classes m).

(** The visitor class [generate_visitor] appended to [m], and the methods
    it declares. *)
Definition visitor_class (m : Module_) : stmt :=
  default Pass (last (body m)).

Definition capabilities (m : Module_) : list string :=
  method_names (visitor_class m).

(** A function definition decorated with [abstractmethod]. *)
Definition is_abstract (fd : stmt) : bool :=
  match def_decorators fd with
  | [Name "abstractmethod" _] => true
  | _ => false
  end.

(** The names a class body binds to an abstract function. *)
Definition abstract_methods (c : stmt) : list string :=
  filter (λ n, from_option is_abstract false (find_method c n))
         (method_names c).

(** The methods the visitor class requires of an implementation: the names
    it binds to an abstract function, which a subclass has to override
    before it can be instantiated.  [abstractmethod] has this effect only
    in a class whose metaclass is [ABCMeta], which the base [ABC] brings. *)
Definition required_capabilities (m : Module_) : list string :=
  match class_bases (visitor_class m) with
  | [Name "ABC" _] => abstract_methods (visitor_class m)
  | _ => []
  end.

(** The class definitions of [m] other than the visitor appended last. *)
Definition node_definitions (m : Module_) : list stmt :=
  removelast (classes m).

(** *** The process

    [visitor_names] is one set for the whole process, while [new_node] and
    [generate_visitor] work on whichever [ast.Module] object they are
    handed.  A process holds the set and the module objects by address. *)
Record process := mk_process {
  visitor_names : gset string;
  modules : nat → Module_
}.

Inductive call :=
| call_new_node (module : nat) (a : node_args)
| call_generate_visitor (module : nat).

Definition exec_call `{SetOrder} (p : process) (c : call) : process :=
  match c with
  | call_new_node i a =>
      let '(m, g) := new_node_with (modules p i, visitor_names p) a in
      {| visitor_names := g; modules := <[i := m]> (modules p) |}
  | call_generate_visitor i =>
      let '(m, g) := generate_visitor (modules p i) (visitor_names p) in
      {| visitor_names := g; modules := <[i := m]> (modules p) |}
  end.

Definition exec_calls `{SetOrder} (cs : list call) (p : process) : process :=
  foldl exec_call p cs.

(** The names a history of calls registered with [generate_visit=True]. *)
Definition registered_for_visit (cs : list call) : list string :=
  omap (λ c, match c with
             | call_new_node _ a =>
                 if a_generate_visit a then Some (a_name a) else None
             | call_generate_visitor _ => None
             end) cs.

(** ** The checked-in AST.py

    AST.py as [ast.parse] reads it: loads carry [Load], assignment and
    annotation targets [Store].  An annotation is kept as its source text
    in a [Name], the form the generator builds; the module starts with
    [from __future__ import annotations], so annotations are never
    evaluated. *)

(** [(self, visitor: ASTVisitor, *args: Any, **kwargs: Any)] *)
Definition AST_py_accept_arguments : arguments :=
  {| posonlyargs := [];
     args := [mk_arg "self" None;
              mk_arg "visitor" (Some (Name "ASTVisitor" (Some Load)))];
     vararg := Some (mk_arg "args" (Some (Name "Any" (Some Load))));
     kwonlyargs := [];
     kw_defaults := [];
     kwarg := Some (mk_arg "kwargs" (Some (Name "Any" (Some Load))));
     defaults := [] |}.

(** [def accept(...) -> Any: return visitor.<visit>(self, *args, **kwargs)] *)
Definition AST_py_accept (visit : string) (decorator_list : list expr) : stmt :=
  FunctionDef "accept" AST_py_accept_arguments
    [Return (Some
       (Call (Attribute (Name "visitor" (Some Load)) visit Load)
             [Name "self" (Some Load); Starred (Name "args" (Some Load)) Load]
             [(None, Name "kwargs" (Some Load))]))]
    decorator_list
    (Some (Name "Any" (Some Load))).

(** [self.<attr> = <attr>] *)
Definition AST_py_assign (attr : string) : stmt :=
  Assign [Attribute (Name "self" (Some Load)) attr Store]
         (Name attr (Some Load)).

(** The four classes with [label] and [body] read alike but for their name
    and the method they dispatch to. *)
Definition AST_py_labelled (name visit : string) : stmt :=
  ClassDef name [Name "AST" (Some Load)] []
    [AnnAssign (Name "label" (Some Store)) (Name "Optional[str]" (Some Load))
       None 1;
     AnnAssign (Name "body" (Some Store)) (Name "list[AST]" (Some Load))
       None 1;
     FunctionDef "__init__"
       {| posonlyargs := [];
          args := [mk_arg "self" None;
                   mk_arg "label" (Some (Name "Optional[str]" (Some Load)));
                   mk_arg "body" (Some (Name "list[AST]" (Some Load)))];
          vararg := None; kwonlyargs := []; kw_defaults := [];
          kwarg := None; defaults := [] |}
       [AST_py_assign "label"; AST_py_assign "body"]
       [] None;
     AST_py_accept visit []]
    [].

(** [@abstractmethod def <name>(self, node: AST, *args: Any, **kwargs: Any)
    -> Any: pass] *)
Definition AST_py_visit (name : string) : stmt :=
  FunctionDef name
    {| posonlyargs := [];
       args := [mk_arg "self" None;
                mk_arg "node" (Some (Name "AST" (Some Load)))];
       vararg := Some (mk_arg "args" (Some (Name "Any" (Some Load))));
       kwonlyargs := [];
       kw_defaults := [];
       kwarg := Some (mk_arg "kwargs" (Some (Name "Any" (Some Load))));
       defaults := [] |}
    [Pass]
    [Name "abstractmethod" (Some Load)]
    (Some (Name "Any" (Some Load))).

Definition AST_py : Module_ :=
  {| body :=
       [ImportFrom "__future__" [mk_alias "annotations" None] 0;
        ImportFrom "abc"
          [mk_alias "ABC" None; mk_alias "abstractmethod" None] 0;
        ImportFrom "typing" [mk_alias "Any" None; mk_alias "Optional" None] 0;
        ClassDef "AST" [Name "ABC" (Some Load)] []
          [AST_py_accept "visit_AST" [Name "abstractmethod" (Some Load)]] [];
        ClassDef "Module" [Name "AST" (Some Load)] []
          [AnnAssign (Name "body" (Some Store)) (Name "list[AST]" (Some Load))
             None 1;
           FunctionDef "__init__"
             {| posonlyargs := [];
                args := [mk_arg "self" None;
                         mk_arg "body" (Some (Name "list[AST]" (Some Load)))];
                vararg := None; kwonlyargs := []; kw_defaults := [];
                kwarg := None; defaults := [] |}
             [AST_py_assign "body"]
             [] None;
           AST_py_accept "visit_Module" []]
          [];
        AST_py_labelled "Block" "visit_Block";
        AST_py_labelled "If" "visit_If";
        AST_py_labelled "While" "visit_While";
        AST_py_labelled "Do" "visit_Do";
        ClassDef "ASTVisitor" [Name "ABC" (Some Load)] []
          [AST_py_visit "visit_Do";
           AST_py_visit "visit_Module";
           AST_py_visit "visit_While";
           AST_py_visit "visit_AST";
           AST_py_visit "visit_If";
           AST_py_visit "visit_Block"]
          []];
     type_ignores := [] |}.

(** *** Syntax up to expression contexts

    [ast.unparse] does not print the [ctx] of an expression; [strip_expr]
    and [strip_stmt] forget it. *)
Fixpoint strip_expr (e : expr) : expr :=
  match e with
  | Name id _ => Name id None
  | Attribute value attr _ => Attribute (strip_expr value) attr Load
  | Starred value _ => Starred (strip_expr value) Load
  | Call func args keywords =>
      Call (strip_expr func) (List.map strip_expr args)
        (List.map (λ kv, (kv.1, strip_expr kv.2)) keywords)
  end.

Definition strip_arg (a : arg) : arg :=
  let 'mk_arg n t := a in mk_arg n (option_map strip_expr t).

Definition strip_arguments (a : arguments) : arguments :=
  {| posonlyargs := List.map strip_arg (posonlyargs a);
     args := List.map strip_arg (args a);
     vararg := option_map strip_arg (vararg a);
     kwonlyargs := List.map strip_arg (kwonlyargs a);
     kw_defaults := List.map (option_map strip_expr) (kw_defaults a);
     kwarg := option_map strip_arg (kwarg a);
     defaults := List.map strip_expr (defaults a) |}.

Fixpoint strip_stmt (s : stmt) : stmt :=
  match s with
  | ImportFrom module names level => ImportFrom module names level
  | ClassDef name bases keywords body decorator_list =>
      ClassDef name (List.map strip_expr bases)
        (List.map (λ kv, (kv.1, strip_expr kv.2)) keywords)
        (List.map strip_stmt body) (List.map strip_expr decorator_list)
  | FunctionDef name a body decorator_list returns =>
      FunctionDef name (strip_arguments a) (List.map strip_stmt body)
        (List.map strip_expr decorator_list) (option_map strip_expr returns)
  | AnnAssign target annotation value simple =>
      AnnAssign (strip_expr target) (strip_expr annotation)
        (option_map strip_expr value) simple
  | Assign targets value =>
      Assign (List.map strip_expr targets) (strip_expr value)
  | Return value => Return (option_map strip_expr value)
  | Pass => Pass
  end.

(** What an import statement imports. *)
Definition import_module (s : stmt) : option string :=
  match s with ImportFrom module _ _ => Some module | _ => None end.

Definition import_names (s : stmt) : list alias :=
  match s with ImportFrom _ names _ => names | _ => [] end.

(** *** Reading field declarations *)

(** The annotated declarations [name: type] of a class body, in order. *)
Definition annotations (c : stmt) : list (string * string) :=
  omap (λ s, match s with
             | AnnAssign (Name n _) (Name t _) None _ => Some (n, t)
             | _ => None
             end)
       (class_body c).

(** ** What Python accepts of the generated text

    [ast.unparse] prints a [Name] as its text and a missing body as
    nothing, so a tree of the right type may print as text that is no
    Python at all, or as text that reads back as another tree.  The
    predicates below single out the trees whose text reads back as the
    tree itself ([_ok], [_shape]) and, among them, the definitions the
    compiler refuses ([_rejected]). *)

(** *** Names and annotation text *)

Definition is_letter (c : Ascii.ascii) : bool :=
  let n := Ascii.nat_of_ascii c in
  ((65 <=? n) && (n <=? 90) || (97 <=? n) && (n <=? 122) || (n =? 95))%nat.

Definition is_digit (c : Ascii.ascii) : bool :=
  let n := Ascii.nat_of_ascii c in ((48 <=? n) && (n <=? 57))%nat.

(** An ASCII identifier: a letter or [_], then letters, digits and [_]. *)
Definition identifier (s : string) : bool :=
  match s with
  | EmptyString => false
  | String c s =>
      is_letter c
      && forallb (λ c, is_letter c || is_digit c)
           (String.list_ascii_of_string s)
  end.

Definition keywords : list string :=
  ["False"; "None"; "True"; "and"; "as"; "assert"; "async"; "await"; "break";
   "class"; "continue"; "def"; "del"; "elif"; "else"; "except"; "finally";
   "for"; "from"; "global"; "if"; "import"; "in"; "is"; "lambda"; "nonlocal";
   "not"; "or"; "pass"; "raise"; "return"; "try"; "while"; "with"; "yield"].

(** A name that means itself wherever the generator puts it: an identifier
    that is no keyword and does not start with [__]. *)
Definition plain_name (s : string) : bool :=
  identifier s && bool_decide (s ∉ keywords) && negb (String.prefix "__" s).

(** Annotation text [T ::= name | name[T, ..., T]], read with one state
    per position and the depth of open brackets; a comma may be followed
    by one blank.  The module starts with
    [from __future__ import annotations], so an annotation is never
    evaluated and only has to be an expression. *)
Inductive scan := Expect | Ident (buf : list Ascii.ascii) | Closed | Comma.

Definition type_name (buf : list Ascii.ascii) : bool :=
  let s := String.string_of_list_ascii (rev buf) in
  plain_name s || bool_decide (s = "None").

Fixpoint scan_type (st : scan) (depth : nat) (l : list Ascii.ascii) : bool :=
  match l with
  | [] =>
      match st with
      | Ident buf => (depth =? 0)%nat && type_name buf
      | Closed => (depth =? 0)%nat
      | _ => false
      end
  | c :: l =>
      match st with
      | Expect =>
          if is_letter c then scan_type (Ident [c]) depth l else false
      | Comma =>
          if is_letter c then scan_type (Ident [c]) depth l
          else if (Ascii.nat_of_ascii c =? 32)%nat
          then scan_type Expect depth l
          else false
      | Ident buf =>
          if is_letter c || is_digit c
          then scan_type (Ident (c :: buf)) depth l
          else if (Ascii.nat_of_ascii c =? 91)%nat
          then type_name buf && scan_type Expect (S depth) l
          else if (Ascii.nat_of_ascii c =? 44)%nat
          then type_name buf && (0 <? depth)%nat && scan_type Comma depth l
          else if (Ascii.nat_of_ascii c =? 93)%nat
          then type_name buf
               && match depth with
                  | S d => scan_type Closed d l
                  | 0 => false
                  end
          else false
      | Closed =>
          if (Ascii.nat_of_ascii c =? 44)%nat
          then (0 <? depth)%nat && scan_type Comma depth l
          else if (Ascii.nat_of_ascii c =? 93)%nat
          then match depth with
               | S d => scan_type Closed d l
               | 0 => false
               end
          else false
      end
  end.

Definition type_text (t : string) : bool :=
  scan_type Expect 0 (String.list_ascii_of_string t).

(** Field lists whose names and type texts are of that kind. *)
Definition fields_ok (fields : list (string * string)) : bool :=
  forallb (λ f, plain_name f.1 && type_text f.2) fields.

(** *** Function definitions *)

(** Every parameter name of a signature. *)
Definition parameters (a : arguments) : list string :=
  arg_name <$> (posonlyargs a ++ args a ++ option_list (vararg a)
                ++ kwonlyargs a ++ option_list (kwarg a)).

Definition annotation_ok (t : option expr) : bool :=
  match t with
  | None => true
  | Some (Name t _) => type_text t
  | Some _ => false
  end.

Definition arg_ok (a : arg) : bool :=
  let 'mk_arg n t := a in plain_name n && annotation_ok t.

Definition signature_ok (a : arguments) : bool :=
  forallb arg_ok (posonlyargs a ++ args a ++ option_list (vararg a)
                  ++ kwonlyargs a ++ option_list (kwarg a))
  && bool_decide (length (kw_defaults a) = length (kwonlyargs a)).

(** A definition whose header reads back as written: plain parameter
    names, annotations of the kind above, and no decorator or
    [abstractmethod] alone. *)
Definition def_shape (fd : stmt) : bool :=
  match fd with
  | FunctionDef _ a _ decorator_list returns =>
      signature_ok a && annotation_ok returns
      && match decorator_list with
         | [] | [Name "abstractmethod" _] => true
         | _ => false
         end
  | _ => false
  end.

(** What the compiler refuses of such a definition: a body without a
    statement (nothing is printed after the colon) and a parameter name
    that occurs twice. *)
Definition def_rejected (fd : stmt) : bool :=
  match fd with
  | FunctionDef _ a body _ _ =>
      match body with
      | [] => true
      | _ => negb (bool_decide (NoDup (parameters a)))
      end
  | _ => false
  end.

(** *** Classes and modules *)

(** The names the three imports of [file_module] bind. *)
Definition imported : list string :=
  ["annotations"; "ABC"; "abstractmethod"; "Optional"; "Any"].

(** Expressions and statements of a method body, of the forms the
    generator emits: every name is a parameter of the method, every
    attribute a plain name. *)
Fixpoint expr_ok (params : list string) (e : expr) {struct e} : bool :=
  match e with
  | Name id _ => bool_decide (id ∈ params)
  | Attribute e attr _ => expr_ok params e && plain_name attr
  | Starred _ _ => false
  | Call func args keywords =>
      expr_ok params func
      && forallb (λ a, match a with
                       | Starred e _ => expr_ok params e
                       | e => expr_ok params e
                       end) args
      && forallb (λ kv, let '(k, e) := kv in
                        from_option plain_name true k && expr_ok params e)
           keywords
      && bool_decide (NoDup (omap fst keywords))
  end.

Definition stmt_ok (params : list string) (s : stmt) : bool :=
  match s with
  | Pass => true
  | Return None => true
  | Return (Some e) => expr_ok params e
  | Assign [Attribute obj attr _] e =>
      expr_ok params obj && plain_name attr && expr_ok params e
  | _ => false
  end.

(** A statement of a class body: [pass], a field declaration [n: t], or a
    method with [args], [*vararg] and [**kwarg] only, named [__init__] or
    by a plain name that does not hide an imported one. *)
Definition member_ok (s : stmt) : bool :=
  match s with
  | Pass => true
  | AnnAssign (Name n _) (Name t _) None 1 => plain_name n && type_text t
  | FunctionDef n a body _ _ =>
      def_shape s
      && (bool_decide (n = "__init__")
          || plain_name n && bool_decide (n ∉ imported))
      && match posonlyargs a, kwonlyargs a, kw_defaults a, defaults a with
         | [], [], [], [] => true
         | _, _, _, _ => false
         end
      && forallb (stmt_ok (parameters a)) body
  | _ => false
  end.

(** [class name(parent): ...] with members of that kind. *)
Definition class_shape (c : stmt) : bool :=
  match c with
  | ClassDef name [Name parent _] [] body [] =>
      plain_name name && bool_decide (name ∉ imported) && plain_name parent
      && forallb member_ok body
  | _ => false
  end.

(** The compiler refuses a class without a statement in its body and a
    class with a method it refuses. *)
Definition class_rejected (c : stmt) : bool :=
  match class_body c with
  | [] => true
  | body => existsb def_rejected body
  end.

Definition class_ok (c : stmt) : bool :=
  class_shape c && negb (class_rejected c).

(** The imports of [file_module], the names of one import in any order. *)
Definition imports_ok (l : list stmt) : bool :=
  match l with
  | [ImportFrom m1 [mk_alias n1 None] 0;
     ImportFrom m2 [mk_alias a None; mk_alias b None] 0;
     ImportFrom m3 [mk_alias c None; mk_alias d None] 0] =>
      bool_decide (m1 = "__future__" ∧ n1 = "annotations"
                   ∧ m2 = "abc" ∧ [a; b] ≡ₚ ["ABC"; "abstractmethod"]
                   ∧ m3 = "typing" ∧ [c; d] ≡ₚ ["Optional"; "Any"])
  | _ => false
  end.

(** The statements of a module after its three imports. *)
Definition module_classes (m : Module_) : option (list stmt) :=
  if imports_ok (take 3 (body m)) then Some (drop 3 (body m)) else None.

(** ** Run-time semantics of the generated code *)

Module runtime.

(** [SyntaxError] stands for its subclass [IndentationError] as well. *)
Inductive exn :=
| TypeError
| AttributeError
| SyntaxError
| Exception (msg : string).

(** Instances of the generated node classes live on a heap and are denoted
    by their address; objects defined elsewhere (visitors) are denoted by a
    handle, and [VMethod h attr] is the bound method [attr] of the object
    with handle [h]. *)
Inductive value :=
| VNone
| VInt (n : Z)
| VStr (s : string)
| VTuple (items : list value)
| VList (items : list value)
| VDict (items : list (string * value))
| VRef (l : nat)
| VExt (h : nat)
| VMethod (h : nat) (attr : string).

(** An instance: its class and its [__dict__], in insertion order. *)
Record object := mk_object {
  obj_class : string;
  obj_dict : list (string * value)
}.

(** [Unmodelled]: the program left the fragment of Python described here. *)
Inductive outcome (A : Type) :=
| Returned (a : A)
| Raised (e : exn)
| Unmodelled.
Arguments Returned {A} a.
Arguments Raised {A} e.
Arguments Unmodelled {A}.

(** Lookup and update in an insertion-ordered dictionary. *)
Fixpoint dict_get {A} (d : list (string * A)) (k : string) : option A :=
  match d with
  | [] => None
  | (k', v) :: d => if decide (k' = k) then Some v else dict_get d k
  end.

Fixpoint dict_set {A} (d : list (string * A)) (k : string) (v : A)
    : list (string * A) :=
  match d with
  | [] => [(k, v)]
  | (k', v') :: d =>
      if decide (k' = k) then (k, v) :: d else (k', v') :: dict_set d k v
  end.

(** *** Importing a module

    The compiler sees the whole text before anything runs: one refused
    definition and the import fails with [SyntaxError], no class exists.
    Otherwise the class statements run in order.  Each binds its name to
    the new class, here the class definition followed by those of its
    ancestors, nearest first; the latest binding of a name is the first in
    the list.  The base is [ABC] or a class bound before; any other name
    (a built-in, or none at all) is not followed. *)
Definition class_env : Type := list (string * list stmt).

Definition exec_class (e : class_env) (c : stmt) : outcome class_env :=
  match class_bases c with
  | [Name parent _] =>
      if bool_decide (parent = "ABC")
      then Returned ((class_name c, [c]) :: e)
      else match dict_get e parent with
           | Some chain => Returned ((class_name c, c :: chain) :: e)
           | None => Unmodelled
           end
  | _ => Unmodelled
  end.

Definition load_module (m : Module_) : outcome class_env :=
  match module_classes m with
  | Some cs =>
      if forallb class_shape cs then
        if existsb class_rejected cs then Raised SyntaxError
        else foldl (λ r c, match r with
                           | Returned e => exec_class e c
                           | _ => r
                           end) (Returned []) cs
      else Unmodelled
  | None => Unmodelled
  end.

(** The function [mname] resolves to in a class with the given ancestors:
    the nearest definition wins. *)
Fixpoint chain_method (chain : list stmt) (mname : string) : option stmt :=
  match chain with
  | [] => None
  | c :: chain =>
      match find_method c mname with
      | Some fd => Some fd
      | None => chain_method chain mname
      end
  end.

(** [__abstractmethods__] as [ABCMeta] computes it when the class is
    created: the names the class binds to an abstract function, and the
    abstract names of its base that it does not bind itself. *)
Fixpoint abstract_names (chain : list stmt) : list string :=
  match chain with
  | [] => []
  | c :: chain =>
      abstract_methods c
      ++ filter (λ n, negb (has_method n c)) (abstract_names chain)
  end.

(** A class bound in [e] that cannot be instantiated. *)
Definition abstract_class (e : class_env) (cname : string) : bool :=
  match dict_get e cname with
  | Some chain =>
      match abstract_names chain with [] => false | _ => true end
  | None => false
  end.

Section semantics.

(** [W] is the state of everything outside the generated module (what the
    visitors read and write). *)
Context {W : Type}.

Record state := mk_state {
  heap : list object;
  world : W
}.

Definition M (A : Type) : Type := state → outcome A * state.

Definition ret {A} (a : A) : M A := λ σ, (Returned a, σ).
Definition raise {A} (e : exn) : M A := λ σ, (Raised e, σ).
Definition unmodelled {A} : M A := λ σ, (Unmodelled, σ).
Definition bind {A B} (m : M A) (k : A → M B) : M B :=
  λ σ, match m σ with
       | (Returned a, σ') => k a σ'
       | (Raised e, σ') => (Raised e, σ')
       | (Unmodelled, σ') => (Unmodelled, σ')
       end.

Notation "x <- m ;; k" := (bind m (λ x, k))
  (at level 100, m at next level, right associativity).

(** What a call receives: positional values and keyword values, the latter
    in the order written and with pairwise distinct names. *)
Definition callable : Type := list value → list (string * value) → M value.

(** The methods of the objects defined elsewhere. *)
Context (getattr_ext : nat → string → option callable).

(** [getattr(v, attr)].  An instance of a node class has the attributes of
    its [__dict__]; a plain name found there is not hidden by anything in
    the class.  What the class of the instance adds is not followed here
    (its methods are reached through [call_method] and [call_method_in]
    below).  [None] has no attribute outside the [__x__] ones; the
    attributes of the other built-in values are not modelled. *)
Definition getattr (v : value) (attr : string) : M value :=
  match v with
  | VRef l => λ σ,
      match heap σ !! l with
      | Some o =>
          match dict_get (obj_dict o) attr with
          | Some x =>
              if plain_name attr then (Returned x, σ) else (Unmodelled, σ)
          | None => (Unmodelled, σ)
          end
      | None => (Unmodelled, σ)
      end
  | VExt h =>
      match getattr_ext h attr with
      | Some _ => ret (VMethod h attr)
      | None => raise AttributeError
      end
  | VNone =>
      if String.prefix "__" attr then unmodelled else raise AttributeError
  | _ => unmodelled
  end.

(** [setattr(v, attr, x)] for a plain name [attr]: an instance of a node
    class stores it in its [__dict__] (neither the generated classes nor
    [object] define a setter for a plain name), a built-in value has no
    attribute to set. *)
Definition setattr (v : value) (attr : string) (x : value) : M unit :=
  if plain_name attr then
    match v with
    | VRef l => λ σ,
        match heap σ !! l with
        | Some o =>
            (Returned (),
             {| heap := <[l := {| obj_class := obj_class o;
                                  obj_dict := dict_set (obj_dict o) attr x |}]>
                          (heap σ);
                world := world σ |})
        | None => (Unmodelled, σ)
        end
    | VExt _ => unmodelled
    | _ => raise AttributeError
    end
  else unmodelled.

(** Calling the value [f] on positional values [pos] and keywords [kw]. *)
Definition call_value (f : value) : callable :=
  λ pos kw,
    match f with
    | VMethod h attr =>
        match getattr_ext h attr with
        | Some g => g pos kw
        | None => unmodelled
        end
    | VExt _ => unmodelled
    | _ => raise TypeError
    end.

(** The items of [*v] in a call. *)
Definition iterate (v : value) : M (list value) :=
  match v with
  | VTuple l | VList l => ret l
  | VDict d => ret ((λ kv, VStr kv.1) <$> d)
  | VStr s => ret ((λ c, VStr (String c EmptyString)) <$> String.list_ascii_of_string s)
  | VNone | VInt _ => raise TypeError
  | _ => unmodelled
  end.

(** The items of [**v] in a call. *)
Definition mapping (v : value) : M (list (string * value)) :=
  match v with
  | VDict d => ret d
  | VRef _ | VExt _ => unmodelled
  | _ => raise TypeError
  end.

(** The explicitly named keywords of a call. *)
Definition explicit_keywords (keywords : list (option string * expr))
    : list string :=
  omap fst keywords.

(** Expressions are evaluated in the local variables of a call.  A name
    that is no local variable, a starred expression outside a call and a
    keyword written twice are not of the generator's making. *)
Fixpoint eval_expr (env : list (string * value)) (e : expr) {struct e}
    : M value :=
  match e with
  | Name id _ =>
      match dict_get env id with
      | Some v => ret v
      | None => unmodelled
      end
  | Attribute e attr _ =>
      v <- eval_expr env e ;;
      getattr v attr
  | Starred _ _ => unmodelled
  | Call func args keywords =>
      if bool_decide (NoDup (explicit_keywords keywords)) then
        f <- eval_expr env func ;;
        pos <- (fix eval_args (l : list expr) : M (list value) :=
                  match l with
                  | [] => ret []
                  | Starred e _ :: l =>
                      v <- eval_expr env e ;;
                      items <- iterate v ;;
                      rest <- eval_args l ;;
                      ret (items ++ rest)
                  | e :: l =>
                      v <- eval_expr env e ;;
                      rest <- eval_args l ;;
                      ret (v :: rest)
                  end) args ;;
        kw <- (fix eval_keywords (l : list (option string * expr))
                   : M (list (string * value)) :=
                 match l with
                 | [] => ret []
                 | (Some k, e) :: l =>
                     v <- eval_expr env e ;;
                     rest <- eval_keywords l ;;
                     ret ((k, v) :: rest)
                 | (None, e) :: l =>
                     v <- eval_expr env e ;;
                     items <- mapping v ;;
                     rest <- eval_keywords l ;;
                     ret (items ++ rest)
                 end) keywords ;;
        if bool_decide (NoDup kw.*1) then call_value f pos kw
        else raise TypeError
      else unmodelled
  end.

(** One statement of a function body; [Some v] when it returned [v]. *)
Definition exec_stmt (env : list (string * value)) (s : stmt)
    : M (option value) :=
  match s with
  | Pass => ret None
  | Return None => ret (Some VNone)
  | Return (Some e) =>
      v <- eval_expr env e ;;
      ret (Some v)
  | Assign [Attribute obj attr _] e =>
      v <- eval_expr env e ;;
      o <- eval_expr env obj ;;
      _ <- setattr o attr v ;;
      ret None
  | _ => unmodelled
  end.

Fixpoint exec_block (env : list (string * value)) (l : list stmt)
    : M (option value) :=
  match l with
  | [] => ret None
  | s :: l =>
      r <- exec_stmt env s ;;
      match r with
      | Some v => ret (Some v)
      | None => exec_block env l
      end
  end.

(** Binding the values of a call to the parameters of a signature without
    default values (the generator emits no other).  Positional values fill
    [posonlyargs] and [args] from the left and the surplus goes to
    [*vararg]; a keyword names a parameter of [args] or [kwonlyargs], which
    must still be free, or else goes to [**kwarg]; all parameters must end
    up bound. *)
Definition bind_arguments (a : arguments) (pos : list value)
    (kw : list (string * value)) : outcome (list (string * value)) :=
  let pnames := arg_name <$> (posonlyargs a ++ args a) in
  let knames := arg_name <$> (args a ++ kwonlyargs a) in
  let bound := zip pnames pos in
  let surplus := drop (length pnames) pos in
  let named := filter (λ kv, kv.1 ∈ knames) kw in
  let other := filter (λ kv, kv.1 ∉ knames) kw in
  match defaults a, omap id (kw_defaults a) with
  | [], [] =>
      if bool_decide (vararg a = None ∧ surplus ≠ []) then Raised TypeError
      else if bool_decide (kwarg a = None ∧ other ≠ []) then Raised TypeError
      else if bool_decide (Exists (λ kv, kv.1 ∈ bound.*1) named)
      then Raised TypeError
      else if bool_decide
                (Forall (λ p, p ∈ (bound ++ named).*1)
                   (pnames ++ (arg_name <$> kwonlyargs a)))
      then Returned
             (bound ++ named
              ++ ((λ v, (arg_name v, VTuple surplus)) <$> option_list (vararg a))
              ++ ((λ k, (arg_name k, VDict other)) <$> option_list (kwarg a)))
      else Raised TypeError
  | _, _ => Unmodelled
  end.

(** Calling a function that a definition of the module created.  There is
    such a function only if the definition reads back as written and the
    compiler takes it; [abstractmethod] marks the function and leaves it
    callable. *)
Definition call_function (fd : stmt) : callable :=
  λ pos kw,
    match fd with
    | FunctionDef _ a body _ _ =>
        if def_shape fd && negb (def_rejected fd) then
          match bind_arguments a pos kw with
          | Returned env =>
              r <- exec_block env body ;;
              ret (default VNone r)
          | Raised e => raise e
          | Unmodelled => unmodelled
          end
        else unmodelled
    | _ => unmodelled
    end.

(** [c.mname(self, ...)] for a method the class [c] defines itself.  There
    is such a class only if the compiler takes all of it. *)
Definition call_method (c : stmt) (mname : string) (self : value) : callable :=
  λ pos kw,
    if class_ok c then
      match find_method c mname with
      | Some fd => call_function fd (self :: pos) kw
      | None => unmodelled
      end
    else unmodelled.

(** [object.__new__]: a new instance of the class named [cname], with an
    empty [__dict__]. *)
Definition new_instance (cname : string) : M value :=
  λ σ, (Returned (VRef (length (heap σ))),
        {| heap := heap σ ++ [{| obj_class := cname; obj_dict := [] |}];
           world := world σ |}).

(** Calling the class [c], seen on its own.  A class that binds a name to
    an abstract function cannot be instantiated (under [ABC]; under
    another base this depends on the base).  Otherwise a new instance is
    allocated, the [__init__] the class defines runs on it and must return
    [None], and the instance is the result.  What the class inherits is
    not looked at: [instantiate] below follows the ancestors. *)
Definition construct (c : stmt) : callable :=
  λ pos kw,
    if class_ok c then
      match abstract_methods c with
      | [] =>
          self <- new_instance (class_name c) ;;
          r <- call_method c "__init__" self pos kw ;;
          match r with
          | VNone => ret self
          | _ => raise TypeError
          end
      | _ =>
          match class_bases c with
          | [Name "ABC" _] => raise TypeError
          | _ => unmodelled
          end
      end
    else unmodelled.

(** Looking up attribute [attr] of [v] and calling it. *)
Definition call_attr (v : value) (attr : string) : callable :=
  λ pos kw,
    f <- getattr v attr ;;
    call_value f pos kw.

(** *** Calls into an imported module *)

(** [cname.mname(self, ...)]: the function the class bound to [cname]
    defines or inherits under the name [mname], called on [self].  A name
    the classes of the module do not define may still be one of [object]
    or of the metaclass, which are not followed. *)
Definition call_method_in (e : class_env) (cname mname : string)
    (self : value) : callable :=
  λ pos kw,
    match dict_get e cname with
    | Some chain =>
        match chain_method chain mname with
        | Some fd => call_function fd (self :: pos) kw
        | None => unmodelled
        end
    | None => unmodelled
    end.

(** [cname(...)]: calling the class bound to [cname].  A class with an
    abstract name left raises [TypeError] and no instance is made.
    Otherwise a new instance is allocated and the [__init__] the class
    defines or inherits runs on it and must return [None]; with no
    [__init__] in the module it is that of [object], which takes no
    argument. *)
Definition instantiate (e : class_env) (cname : string) : callable :=
  λ pos kw,
    match dict_get e cname with
    | Some chain =>
        match abstract_names chain with
        | [] =>
            match chain_method chain "__init__" with
            | Some fd =>
                self <- new_instance cname ;;
                r <- call_function fd (self :: pos) kw ;;
                match r with
                | VNone => ret self
                | _ => raise TypeError
                end
            | None =>
                match pos, kw with
                | [], [] => new_instance cname
                | _, _ => raise TypeError
                end
            end
        | _ => raise TypeError
        end
    | None => unmodelled
    end.

End semantics.

End runtime.

Import runtime.

(** * Properties *)

(** ** The shape of what [new_node] and [generate_visitor] append *)

Section generator.

Context `{SetOrder}.

Lemma visit_inj (a b : string) : "visit_" +:+ a = "visit_" +:+ b → a = b.
Proof. apply (inj (String.app "visit_")). Qed.

Lemma visit_not_accept (a : string) : "visit_" +:+ a ≠ "accept".
Proof. intros E. cbv in E. discriminate. Qed.

Lemma filter_annotations (mname : string) (fields : list (string * string)) :
  filter (λ s, is_def mname s)
    ((λ '(f_name, f_type),
        AnnAssign (Name f_name (Some Store)) (Name f_type (Some Load)) None 1)
       <$> fields) = [].
Proof. induction fields as [|[??] fields IH]; simpl; auto. Qed.

Lemma method_names_annotations (fields : list (string * string)) :
  omap (λ s, match s with FunctionDef n _ _ _ _ => Some n | _ => None end)
    ((λ '(f_name, f_type),
        AnnAssign (Name f_name (Some Store)) (Name f_type (Some Load)) None 1)
       <$> fields) = [].
Proof. induction fields as [|[??] fields IH]; simpl; auto. Qed.

(** What one [new_node] call does: it appends one class definition named
    [name] with the single base [parent]; the class defines [__init__]
    exactly when [generate_init] and [accept] exactly when
    [generate_visit]; the name joins [visitor_names] exactly when
    [generate_visit]. *)
Lemma new_node_spec (m : Module_) (name : string)
    (fields : option (list (string * string))) (parent : string)
    (gi av gv : bool) (g : gset string) :
  ∃ cbody,
    new_node m name fields parent gi av gv g
    = (body_append m (ClassDef name [Name parent (Some Load)] [] cbody []),
       if gv then g ∪ {[name]} else g)
    ∧ filter (λ s, is_def "accept" s) cbody
      = (if gv then [accept_def name av] else [])
    ∧ filter (λ s, is_def "__init__" s) cbody
      = (if gi then [init_def (default [] fields)] else [])
    ∧ omap (λ s, match s with FunctionDef n _ _ _ _ => Some n | _ => None end)
        cbody
      = (if gi then ["__init__"] else []) ++ (if gv then ["accept"] else []).
Proof.
  unfold new_node. eexists. split; [reflexivity|].
  pose proof (filter_annotations "accept" (default [] fields)) as Ha.
  pose proof (filter_annotations "__init__" (default [] fields)) as Hi.
  pose proof (method_names_annotations (default [] fields)) as Hn.
  destruct gi, gv; simpl;
    repeat match goal with
    | |- context [match ?l ++ [?x] with _ => _ end] =>
        replace (match l ++ [x] with [] => [Pass] | _ :: _ => l ++ [x] end)
          with (l ++ [x]) by (destruct l; reflexivity)
    end;
    rewrite ?filter_app, ?omap_app, ?Ha, ?Hi, ?Hn; simpl; auto.
  destruct (_ <$> default [] fields); simpl; auto.
Qed.

Lemma new_node_with_eq (st : Module_ * gset string) (a : node_args) :
  new_node_with st a
  = (body_append st.1 (node_class a),
     if a_generate_visit a then st.2 ∪ {[a_name a]} else st.2).
Proof.
  unfold node_class, new_node_with, new_node; reflexivity.
Qed.

Lemma node_class_spec (a : node_args) :
  is_class (node_class a) = true
  ∧ class_name (node_class a) = a_name a
  ∧ class_bases (node_class a) = [Name (a_parent a) (Some Load)]
  ∧ find_method (node_class a) "accept"
    = (if a_generate_visit a
       then Some (accept_def (a_name a) (a_abstract_visit a)) else None)
  ∧ find_method (node_class a) "__init__"
    = (if a_generate_init a
       then Some (init_def (default [] (a_fields a))) else None)
  ∧ method_names (node_class a)
    = (if a_generate_init a then ["__init__"] else [])
      ++ (if a_generate_visit a then ["accept"] else []).
Proof.
  unfold node_class, new_node_with. cbn [fst snd].
  destruct (new_node_spec {| body := []; type_ignores := [] |} (a_name a)
              (a_fields a) (a_parent a) (a_generate_init a)
              (a_abstract_visit a) (a_generate_visit a) ∅)
    as (cbody & -> & Ha & Hi & Hn).
  unfold find_method, method_names. simpl. rewrite Ha, Hi, Hn.
  repeat split; auto; [destruct (a_generate_visit a)|destruct (a_generate_init a)];
    reflexivity.
Qed.

Lemma has_accept_node_class (a : node_args) :
  has_method "accept" (node_class a) = a_generate_visit a.
Proof.
  unfold has_method.
  destruct (node_class_spec a) as (_ & _ & _ & -> & _).
  destruct (a_generate_visit a); reflexivity.
Qed.

Lemma new_nodes_eq (l : list node_args) (m : Module_) (g : gset string) :
  new_nodes l (m, g)
  = ({| body := body m ++ (node_class <$> l);
        type_ignores := type_ignores m |},
     g ∪ list_to_set (visit_names l)).
Proof.
  unfold new_nodes. revert m g.
  induction l as [|a l IH]; intros m g; simpl.
  - destruct m. simpl. rewrite app_nil_r. f_equal. set_solver.
  - rewrite new_node_with_eq. simpl. rewrite IH. simpl.
    rewrite <- app_assoc. simpl. f_equal.
    unfold visit_names. rewrite filter_cons.
    destruct (a_generate_visit a); simpl; set_solver.
Qed.

Lemma classes_body_append (m : Module_) (c : stmt) :
  is_class c = true → classes (body_append m c) = classes m ++ [c].
Proof.
  intros Hc. unfold classes, body_append. simpl.
  rewrite filter_app, filter_cons_True by (rewrite Hc; exact I).
  reflexivity.
Qed.

Lemma new_node_class (m : Module_) (name : string)
    (fields : option (list (string * string))) (parent : string)
    (gi av gv : bool) (g : gset string) :
  new_node m name fields parent gi av gv g
  = (body_append m (node_class (mk_node_args name fields parent gi av gv)),
     if gv then g ∪ {[name]} else g).
Proof.
  exact (new_node_with_eq (m, g) (mk_node_args name fields parent gi av gv)).
Qed.

Lemma method_names_visitor (l : list string) :
  method_names
    (ClassDef "ASTVisitor" [Name "ABC" (Some Load)] [] (visit_def <$> l) [])
  = String.app "visit_" <$> l.
Proof.
  unfold method_names. simpl.
  induction l as [|x l IH]; simpl; [reflexivity|]. f_equal. exact IH.
Qed.

Lemma capabilities_generate_visitor (m : Module_) (g : gset string) :
  capabilities (generate_visitor m g).1 = String.app "visit_" <$> set_iter g.
Proof.
  unfold capabilities, visitor_class, generate_visitor, body_append. simpl.
  rewrite last_snoc. simpl. apply method_names_visitor.
Qed.

Lemma elem_of_set_iter (g : gset string) (k : string) :
  k ∈ set_iter g ↔ k ∈ g.
Proof. rewrite (set_iter_perm g). apply elem_of_elements. Qed.

Lemma elem_of_capabilities (m : Module_) (g : gset string) (k : string) :
  "visit_" +:+ k ∈ capabilities (generate_visitor m g).1 ↔ k ∈ g.
Proof.
  rewrite capabilities_generate_visitor, list_elem_of_fmap. split.
  - intros (k' & E & Hk'). apply visit_inj in E as ->.
    now apply elem_of_set_iter.
  - intros Hk. exists k. split; [reflexivity|]. now apply elem_of_set_iter.
Qed.

(** In the visitor class the name [visit_k] is bound to [visit_def k]. *)
Lemma find_method_visitor (l : list string) (k : string) :
  k ∈ l →
  find_method
    (ClassDef "ASTVisitor" [Name "ABC" (Some Load)] [] (visit_def <$> l) [])
    ("visit_" +:+ k)
  = Some (visit_def k).
Proof.
  unfold find_method. cbn [class_body].
  assert (Hl : last (filter (λ s, is_def ("visit_" +:+ k) s) (visit_def <$> l))
               = if decide (k ∈ l) then Some (visit_def k) else None).
  { induction l as [|x l IH].
    - rewrite decide_False by (inversion 1). reflexivity.
    - rewrite fmap_cons. destruct (decide (x = k)) as [->|Hne].
      + rewrite filter_cons_True
          by (cbn [visit_def is_def]; now rewrite bool_decide_eq_true_2).
        rewrite last_cons, IH, (decide_True (P := k ∈ k :: l)) by left.
        now destruct (decide (k ∈ l)).
      + rewrite filter_cons_False, IH.
        * destruct (decide (k ∈ l)) as [Hin|Hnot].
          -- now rewrite decide_True by (now right).
          -- rewrite decide_False; [reflexivity|].
             intros [E|Hin]%elem_of_cons; [now symmetry in E|contradiction].
        * cbn [visit_def is_def].
          rewrite bool_decide_eq_false_2; [exact id|].
          intros E%visit_inj. contradiction. }
  intros Hin. now rewrite Hl, decide_True.
Qed.

Lemma filter_Forall_id {A} (P : A → Prop) `{∀ x, Decision (P x)}
    (l : list A) :
  Forall P l → filter P l = l.
Proof.
  induction 1 as [|x l Hx _ IH]; [reflexivity|].
  now rewrite filter_cons_True, IH.
Qed.

(** Every method of the visitor class is abstract. *)
Lemma abstract_methods_visitor (l : list string) :
  abstract_methods
    (ClassDef "ASTVisitor" [Name "ABC" (Some Load)] [] (visit_def <$> l) [])
  = String.app "visit_" <$> l.
Proof.
  unfold abstract_methods. rewrite method_names_visitor.
  apply filter_Forall_id, Forall_fmap, Forall_forall. intros k Hk.
  cbn [compose]. change ("visit_" +:+ k) with (String.app "visit_" k).
  now rewrite (find_method_visitor l k Hk).
Qed.

(** The visitor [generate_visitor] appends requires [visit_k] for every
    [k] in [visitor_names], once, and nothing else. *)
Lemma required_generate_visitor (m : Module_) (g : gset string) :
  required_capabilities (generate_visitor m g).1
  = String.app "visit_" <$> set_iter g.
Proof.
  unfold required_capabilities, visitor_class, generate_visitor, body_append.
  cbn [fst body]. rewrite last_snoc. cbn [default class_bases].
  apply abstract_methods_visitor.
Qed.

Lemma elem_of_required (m : Module_) (g : gset string) (k : string) :
  "visit_" +:+ k ∈ required_capabilities (generate_visitor m g).1 ↔ k ∈ g.
Proof.
  rewrite required_generate_visitor, list_elem_of_fmap. split.
  - intros (k' & E & Hk'). apply visit_inj in E as ->.
    now apply elem_of_set_iter.
  - intros Hk. exists k. split; [reflexivity|]. now apply elem_of_set_iter.
Qed.

Lemma NoDup_required (m : Module_) (g : gset string) :
  NoDup (required_capabilities (generate_visitor m g).1).
Proof.
  rewrite required_generate_visitor.
  apply NoDup_fmap_2; [apply _|].
  rewrite (set_iter_perm g). apply NoDup_elements.
Qed.

End generator.

(** ** Frame of the two operations *)

Section frame.

Context `{SetOrder}.

(** C10.  Every [new_node] call, whatever its flags, appends exactly one
    class definition to the body of the module it is given and leaves the
    entries that were there unchanged; every [generate_visitor] call
    likewise appends exactly one class definition, the visitor. *)
Theorem append_exactly_one_class (m : Module_) (name : string)
    (fields : option (list (string * string))) (parent : string)
    (gi av gv : bool) (g : gset string) :
  (∃ c, is_class c = true ∧ class_name c = name
        ∧ body (new_node m name fields parent gi av gv g).1 = body m ++ [c])
  ∧ (∃ c, is_class c = true ∧ class_name c = "ASTVisitor"
          ∧ body (generate_visitor m g).1 = body m ++ [c])
  ∧ (∀ i s, body m !! i = Some s →
       body (new_node m name fields parent gi av gv g).1 !! i = Some s
       ∧ body (generate_visitor m g).1 !! i = Some s)
  ∧ length (body (new_node m name fields parent gi av gv g).1)
    = S (length (body m))
  ∧ length (body (generate_visitor m g).1) = S (length (body m)).
Proof.
  rewrite new_node_class.
  destruct (node_class_spec (mk_node_args name fields parent gi av gv))
    as (Hc & Hn & _).
  unfold generate_visitor, body_append. simpl.
  split; [exists (node_class (mk_node_args name fields parent gi av gv)); auto|].
  split; [eexists; split; [|split; [|reflexivity]]; reflexivity|].
  split.
  - intros i s Hi. split; now apply lookup_app_l_Some.
  - rewrite !length_app. simpl. lia.
Qed.

(** C6.  A call with [generate_visit=False] leaves [visitor_names] as it
    was, so it adds no [visit_<name>] method to a visitor generated
    afterwards, and the class it appends has no [accept] method. *)
Theorem opt_out_respected (m : Module_) (name : string)
    (fields : option (list (string * string))) (parent : string)
    (gi av : bool) (g : gset string) :
  let r := new_node m name fields parent gi av false g in
  r.2 = g
  ∧ capabilities (generate_visitor r.1 r.2).1
    = capabilities (generate_visitor m g).1
  ∧ ("visit_" +:+ name ∈ capabilities (generate_visitor r.1 r.2).1 ↔ name ∈ g)
  ∧ ∃ c, body r.1 = body m ++ [c] ∧ class_name c = name
         ∧ has_method "accept" c = false ∧ "accept" ∉ method_names c.
Proof.
  intros r. subst r. rewrite new_node_class. cbn [fst snd].
  destruct (node_class_spec (mk_node_args name fields parent gi av false))
    as (Hc & Hn & _ & Ha & _ & Hm).
  cbn [a_name a_generate_visit a_generate_init] in *.
  split; [reflexivity|]. split.
  - now rewrite !capabilities_generate_visitor.
  - split; [apply elem_of_capabilities|].
    eexists. split; [reflexivity|]. split; [exact Hn|]. split.
    + unfold has_method. now rewrite Ha.
    + rewrite Hm. destruct gi; simpl; set_solver.
Qed.

End frame.

(** ** Registration accepts every name and every parent *)

Section registration.

(** C4, as amended.  [new_node] does not look at the names already in the
    module: a call whose name is already present returns normally, appends
    a second class definition of that name and so raises the number of
    declarations by one; the declarations that were there stay as they
    were. *)
Theorem duplicate_name_is_appended (m : Module_) (name : string)
    (fields : option (list (string * string))) (parent : string)
    (gi av gv : bool) (g : gset string) :
  name ∈ class_names m →
  let m' := (new_node m name fields parent gi av gv g).1 in
  class_names m' = class_names m ++ [name]
  ∧ length (classes m') = S (length (classes m))
  ∧ ∃ c, is_class c = true ∧ class_name c = name ∧ body m' = body m ++ [c].
Proof.
  intros _ m'. subst m'. rewrite new_node_class. cbn [fst].
  destruct (node_class_spec (mk_node_args name fields parent gi av gv))
    as (Hc & Hn & _).
  unfold class_names. rewrite classes_body_append by exact Hc.
  rewrite fmap_app, length_app. cbn [fmap list_fmap length]. rewrite Hn.
  split; [reflexivity|]. split; [lia|]. eauto.
Qed.

Lemma duplicate_name_is_appended_witness :
  let m := (new_node file_module "Module" (Some [("body", "list[AST]")])
              "AST" true false true visitor_names_init).1 in
  "Module" ∈ class_names m
  ∧ class_names
      (new_node m "Module" (Some [("body", "list[AST]")]) "AST" true false
         true {["Module"]}).1
    = class_names m ++ ["Module"].
Proof.
  intros m.
  assert (Hin : "Module" ∈ class_names m) by (vm_compute; constructor).
  split; [exact Hin|].
  exact (proj1 (duplicate_name_is_appended m "Module"
                  (Some [("body", "list[AST]")]) "AST" true false true
                  {["Module"]} Hin)).
Defined.

(** C4 as stated fails: registering ["Module"] twice leaves two
    declarations of that name, so the count is not unchanged. *)
Lemma duplicate_name_counterexample :
  let a := mk_node_args "Module" (Some [("body", "list[AST]")]) "AST"
             true false true in
  let st := new_node_with (file_module, visitor_names_init) a in
  let st' := new_node_with st a in
  a_name a ∈ class_names st.1
  ∧ class_names st'.1 = ["Module"; "Module"]
  ∧ length (classes st'.1) ≠ length (classes st.1).
Proof.
  intros a st st'. split; [vm_compute; constructor|].
  split; [reflexivity|]. vm_compute. discriminate.
Qed.

(** C5, as amended.  [new_node] does not look for the parent either: a
    call naming a parent that no class of the module has returns normally
    and appends the class, with that name as its single base. *)
Theorem unknown_parent_is_appended (m : Module_) (name : string)
    (fields : option (list (string * string))) (parent : string)
    (gi av gv : bool) (g : gset string) :
  parent ∉ class_names m →
  let m' := (new_node m name fields parent gi av gv g).1 in
  class_names m' = class_names m ++ [name]
  ∧ ∃ c, is_class c = true ∧ class_name c = name
         ∧ class_bases c = [Name parent (Some Load)]
         ∧ body m' = body m ++ [c].
Proof.
  intros _ m'. subst m'. rewrite new_node_class. cbn [fst].
  destruct (node_class_spec (mk_node_args name fields parent gi av gv))
    as (Hc & Hn & Hb & _).
  unfold class_names. rewrite classes_body_append by exact Hc.
  rewrite fmap_app. cbn [fmap list_fmap]. rewrite Hn.
  split; [reflexivity|]. eauto.
Qed.

Lemma unknown_parent_is_appended_witness :
  ("AST" ∉ class_names file_module)
  ∧ class_names
      (new_node file_module "Module" (Some [("body", "list[AST]")]) "AST"
         true false true visitor_names_init).1
    = class_names file_module ++ ["Module"].
Proof.
  assert (Hnot : "AST" ∉ class_names file_module)
    by (vm_compute; intros Hin; inversion Hin).
  split; [exact Hnot|].
  exact (proj1 (unknown_parent_is_appended file_module "Module"
                  (Some [("body", "list[AST]")]) "AST" true false true
                  visitor_names_init Hnot)).
Defined.

(** C5 as stated fails: on the module as loaded, where no class is
    registered yet, a call with the default parent ["AST"] adds its
    declaration. *)
Lemma unknown_parent_counterexample :
  let m' := (new_node file_module "Module" (Some [("body", "list[AST]")])
               "AST" true false true visitor_names_init).1 in
  ("AST" ∉ class_names file_module)
  ∧ class_names m' = ["Module"]
  ∧ (class_bases <$> classes m') = [[Name "AST" (Some Load)]]
  ∧ length (body m') = S (length (body file_module)).
Proof.
  intros m'. split; [vm_compute; intros Hin; inversion Hin|].
  repeat split; reflexivity.
Qed.

End registration.

(** ** Node classes and the visitor of one run *)

Section consistency.

Context `{SetOrder}.

Lemma visitor_has_no_accept (l : list string) :
  has_method "accept"
    (ClassDef "ASTVisitor" [Name "ABC" (Some Load)] [] (visit_def <$> l) [])
  = false.
Proof.
  unfold has_method, find_method. simpl.
  replace (filter (λ s, is_def "accept" s) (visit_def <$> l)) with (@nil stmt);
    [reflexivity|].
  induction l as [|x l IH]; [reflexivity|].
  rewrite fmap_cons, filter_cons_False; [exact IH|].
  simpl. tauto.
Qed.

Lemma classes_node_classes (l : list node_args) :
  filter (λ s, is_class s) (node_class <$> l) = node_class <$> l.
Proof.
  induction l as [|a l IH]; [reflexivity|].
  rewrite fmap_cons, filter_cons_True, IH; [reflexivity|].
  destruct (node_class_spec a) as (-> & _). exact I.
Qed.

Lemma dispatch_node_classes (l : list node_args) :
  class_name <$> filter (λ c, has_method "accept" c) (node_class <$> l)
  = visit_names l.
Proof.
  unfold visit_names.
  induction l as [|a l IH]; [reflexivity|].
  rewrite fmap_cons. destruct (a_generate_visit a) eqn:E.
  - rewrite filter_cons_True by (rewrite has_accept_node_class, E; exact I).
    rewrite (filter_cons_True _ a) by (rewrite E; exact I).
    rewrite !fmap_cons. destruct (node_class_spec a) as (_ & -> & _).
    f_equal. exact IH.
  - rewrite filter_cons_False by (rewrite has_accept_node_class, E; simpl; tauto).
    rewrite (filter_cons_False _ a) by (rewrite E; simpl; tauto).
    exact IH.
Qed.

Lemma run_eq (l : list node_args) (m : Module_) (g : gset string) :
  run l m g
  = ({| body := (body m ++ (node_class <$> l))
                ++ [ClassDef "ASTVisitor" [Name "ABC" (Some Load)] []
                      (visit_def <$> set_iter (g ∪ list_to_set (visit_names l)))
                      []];
        type_ignores := type_ignores m |},
     g ∪ list_to_set (visit_names l)).
Proof. unfold run. rewrite new_nodes_eq. reflexivity. Qed.

Lemma dispatch_kinds_run (l : list node_args) (m : Module_) (g : gset string) :
  dispatch_kinds (run l m g).1 = dispatch_kinds m ++ visit_names l.
Proof.
  rewrite run_eq. unfold dispatch_kinds, classes. cbn [fst body].
  rewrite !filter_app, classes_node_classes, filter_cons_True by exact I.
  rewrite filter_nil, filter_cons_False, filter_nil, app_nil_r
    by (rewrite visitor_has_no_accept; simpl; tauto).
  rewrite fmap_app, dispatch_node_classes. reflexivity.
Qed.

Lemma capabilities_run (l : list node_args) (m : Module_) (g : gset string) :
  capabilities (run l m g).1
  = String.app "visit_" <$> set_iter (g ∪ list_to_set (visit_names l)).
Proof.
  rewrite run_eq. unfold capabilities, visitor_class. cbn [fst body].
  rewrite last_snoc. apply method_names_visitor.
Qed.

Lemma required_run (l : list node_args) (m : Module_) (g : gset string) :
  required_capabilities (run l m g).1
  = String.app "visit_" <$> set_iter (g ∪ list_to_set (visit_names l)).
Proof.
  rewrite run_eq. unfold required_capabilities, visitor_class. cbn [fst body].
  rewrite last_snoc. cbn [default class_bases].
  apply abstract_methods_visitor.
Qed.

Lemma elem_of_visit_names (l : list node_args) (k : string) :
  k ∈ visit_names l ↔ ∃ a, a ∈ l ∧ a_generate_visit a = true ∧ a_name a = k.
Proof.
  unfold visit_names. rewrite list_elem_of_fmap. split.
  - intros (a & -> & [Ha Hin]%list_elem_of_filter).
    exists a. split; [exact Hin|]. split; [|reflexivity].
    now apply Is_true_eq_true.
  - intros (a & Hin & Hv & <-). exists a. split; [reflexivity|].
    apply list_elem_of_filter. split; [|exact Hin]. rewrite Hv. exact I.
Qed.

(** C1, as amended.  In a run on the module and the set as they are when
    the generator is loaded, the kinds whose class definition has an
    [accept] method are exactly the kinds [k] whose [visit_k] the visitor
    requires (binds to an abstract method, under [ABC]); the visitor
    requires nothing else and declares no other method; every kind passed
    with [generate_visit=True] is among them; a kind passed with
    [generate_visit=False] is not, unless the same name was also passed
    with [generate_visit=True]. *)
Theorem run_consistency (l : list node_args) :
  let m := (run l file_module visitor_names_init).1 in
  (∀ k, k ∈ dispatch_kinds m ↔ "visit_" +:+ k ∈ required_capabilities m)
  ∧ (∀ c, c ∈ required_capabilities m →
       ∃ k, c = "visit_" +:+ k ∧ k ∈ dispatch_kinds m)
  ∧ capabilities m = required_capabilities m
  ∧ (∀ a, a ∈ l → a_generate_visit a = true →
       a_name a ∈ dispatch_kinds m
       ∧ "visit_" +:+ a_name a ∈ required_capabilities m)
  ∧ (∀ a, a ∈ l → a_generate_visit a = false →
       (∀ a', a' ∈ l → a_name a' = a_name a → a_generate_visit a' = false) →
       (a_name a ∉ dispatch_kinds m)
       ∧ ("visit_" +:+ a_name a ∉ required_capabilities m)).
Proof.
  intros m. subst m.
  assert (Hd : ∀ k, k ∈ dispatch_kinds (run l file_module visitor_names_init).1
                    ↔ k ∈ visit_names l).
  { intros k. rewrite dispatch_kinds_run. unfold dispatch_kinds. simpl.
    reflexivity. }
  assert (Hc : ∀ k, "visit_" +:+ k
                    ∈ required_capabilities
                        (run l file_module visitor_names_init).1
                    ↔ k ∈ visit_names l).
  { intros k. rewrite required_run, list_elem_of_fmap. split.
    - intros (k' & E & Hk'). apply visit_inj in E as ->.
      apply elem_of_set_iter in Hk'. unfold visitor_names_init in Hk'.
      set_solver.
    - intros Hk. exists k. split; [reflexivity|].
      apply elem_of_set_iter. set_solver. }
  split; [intros k; now rewrite Hd, Hc|]. split.
  - intros c Hin. pose proof Hin as Hin'.
    rewrite required_run in Hin'.
    apply list_elem_of_fmap in Hin' as (k & -> & _).
    exists k. split; [reflexivity|]. apply Hd. now apply Hc.
  - split; [now rewrite capabilities_run, required_run|]. split.
    + intros a Hin Hv. rewrite Hd, Hc.
      assert (a_name a ∈ visit_names l) by (apply elem_of_visit_names; eauto).
      tauto.
    + intros a Hin Hv Hall. rewrite Hd, Hc.
      assert (a_name a ∉ visit_names l); [|tauto].
      intros (a' & Hin' & Hv' & E)%elem_of_visit_names.
      rewrite (Hall a' Hin' E) in Hv'. discriminate.
Qed.

End consistency.

(** C1 as stated fails in two ways.  A name passed first with
    [generate_visit=True] and then again with [generate_visit=False] was
    passed with [generate_visit=False], and yet it has a class with
    [accept] and the visitor requires its [visit_] method.  And a second
    run in the same process, on a new module, starts with the names the
    first run left in [visitor_names]: its visitor requires [visit_Expr]
    although no class of its module has an [accept] for [Expr]. *)
Lemma run_consistency_counterexample :
  let l := [mk_node_args "Expr" None "AST" true false true;
            mk_node_args "Expr" None "AST" false false false] in
  let m := (run l file_module visitor_names_init).1 in
  (∃ a, a ∈ l ∧ a_generate_visit a = false
        ∧ a_name a ∈ dispatch_kinds m
        ∧ "visit_" +:+ a_name a ∈ required_capabilities m)
  ∧ let first := run [mk_node_args "Expr" None "AST" false false true]
                   file_module visitor_names_init in
    let m2 := (run [mk_node_args "Stmt" None "AST" false false true]
                 file_module first.2).1 in
    dispatch_kinds m2 = ["Stmt"]
    ∧ "visit_Expr" ∈ required_capabilities m2
    ∧ ("Expr" ∉ dispatch_kinds m2).
Proof.
  intros l m. split.
  - exists (mk_node_args "Expr" None "AST" false false false).
    split; [subst l; set_solver|]. split; [reflexivity|].
    split; vm_compute; constructor.
  - intros first m2.
    assert (Hd : dispatch_kinds m2 = ["Stmt"]) by reflexivity.
    split; [exact Hd|]. split.
    + apply (bool_decide_unpack _). vm_compute. exact I.
    + rewrite Hd. apply (bool_decide_unpack _). vm_compute. exact I.
Qed.

(** ** The set of visitor names over the life of the process *)

Section process.

Context `{SetOrder}.

Lemma exec_call_visitor_names (p : process) (c : call) :
  visitor_names (exec_call p c)
  = visitor_names p ∪ list_to_set (registered_for_visit [c]).
Proof.
  destruct c as [i a|i]; unfold exec_call, registered_for_visit.
  - rewrite new_node_with_eq. cbn [fst snd visitor_names omap list_omap].
    destruct (a_generate_visit a); simpl; set_solver.
  - simpl. set_solver.
Qed.

Lemma exec_calls_visitor_names (cs : list call) (p : process) :
  visitor_names (exec_calls cs p)
  = visitor_names p ∪ list_to_set (registered_for_visit cs).
Proof.
  unfold exec_calls. revert p.
  induction cs as [|c cs IH]; intros p; simpl.
  - unfold registered_for_visit. simpl. set_solver.
  - rewrite IH, exec_call_visitor_names.
    unfold registered_for_visit. simpl.
    destruct c as [i a|i]; [destruct (a_generate_visit a)|]; simpl; set_solver.
Qed.

(** C9.  [visitor_names] belongs to the process and only grows: a
    [new_node] call with [generate_visit=True] puts its name in, no call
    takes a name out, and so a visitor generated at any point, in any
    module, requires (binds to an abstract method, under [ABC]) exactly one
    [visit_] method for every name that has been passed with
    [generate_visit=True] since the set was created, be it in an earlier
    run or a name passed again later with [generate_visit=False], and
    requires nothing else. *)
Theorem visitor_names_only_grows (cs : list call) (p : process) :
  let p' := exec_calls cs p in
  (∀ m name fields parent gi av g,
     name ∈ (new_node m name fields parent gi av true g).2)
  ∧ (∀ m name fields parent gi av gv g,
       g ⊆ (new_node m name fields parent gi av gv g).2)
  ∧ (∀ m g, (generate_visitor m g).2 = g)
  ∧ visitor_names p ⊆ visitor_names p'
  ∧ (∀ k, k ∈ registered_for_visit cs → k ∈ visitor_names p')
  ∧ (∀ i, let v := (generate_visitor (modules p' i) (visitor_names p')).1 in
          NoDup (required_capabilities v)
          ∧ (∀ k, "visit_" +:+ k ∈ required_capabilities v
                  ↔ k ∈ visitor_names p ∨ k ∈ registered_for_visit cs)
          ∧ (∀ c, c ∈ required_capabilities v → ∃ k, c = "visit_" +:+ k)
          ∧ (∀ k, "visit_" +:+ k ∈ required_capabilities v →
               find_method (visitor_class v) ("visit_" +:+ k)
               = Some (visit_def k)
               ∧ is_abstract (visit_def k) = true
               ∧ class_bases (visitor_class v) = [Name "ABC" (Some Load)])).
Proof.
  intros p'. subst p'.
  split; [intros; rewrite new_node_class; set_solver|].
  split; [intros ???? gi av gv g; rewrite new_node_class;
          destruct gv; set_solver|].
  split; [reflexivity|].
  rewrite exec_calls_visitor_names.
  split; [set_solver|]. split; [set_solver|].
  intros i v. subst v. split; [apply NoDup_required|]. split; [|split].
  - intros k. rewrite elem_of_required. set_solver.
  - intros c. rewrite required_generate_visitor.
    intros (k & -> & _)%list_elem_of_fmap. now exists k.
  - intros k Hk%elem_of_required.
    unfold visitor_class, generate_visitor, body_append. cbn [fst body].
    rewrite last_snoc. cbn [default class_bases].
    split; [|split; reflexivity].
    apply find_method_visitor. now apply elem_of_set_iter.
Qed.

End process.

(** A name registered once stays required after the same name is passed
    again with [generate_visit=False], also in a visitor generated in
    another module. *)
Example visitor_names_survive_opt_out :
  let p := {| visitor_names := visitor_names_init;
              modules := λ _, file_module |} in
  let cs := [call_new_node 0 (mk_node_args "Expr" None "AST" true false true);
             call_generate_visitor 0;
             call_new_node 1 (mk_node_args "Expr" None "AST" true false false);
             call_generate_visitor 1] in
  required_capabilities (modules (exec_calls cs p) 1) = ["visit_Expr"]
  ∧ dispatch_kinds (modules (exec_calls cs p) 1) = [].
Proof. split; reflexivity. Qed.

(** ** Importing a generated module *)

Section loading.

Lemma imports_ok_inv (l : list stmt) :
  imports_ok l = true →
  ∃ m1 n1 m2 n2 m3 n3,
    l = [ImportFrom m1 n1 0; ImportFrom m2 n2 0; ImportFrom m3 n3 0].
Proof.
  unfold imports_ok. intros Hl.
  repeat match type of Hl with
         | context [match ?x with _ => _ end] =>
             destruct x; try discriminate Hl
         end.
  eauto 10.
Qed.

Lemma imports_ok_length (l : list stmt) : imports_ok l = true → length l = 3.
Proof. intros (?&?&?&?&?&?& ->)%imports_ok_inv. reflexivity. Qed.

Lemma imports_ok_class (l : list stmt) (c : stmt) :
  is_class c = true → c ∈ l → imports_ok l = false.
Proof.
  intros Hc Hin. destruct (imports_ok l) eqn:E; [|reflexivity]. exfalso.
  apply imports_ok_inv in E as (?&?&?&?&?&?& ->).
  repeat (apply elem_of_cons in Hin as [->|Hin]; [discriminate|]).
  inversion Hin.
Qed.

(** Appending a class to a module leaves its imports where they are. *)
Lemma module_classes_append (m : Module_) (c : stmt) (cs : list stmt) :
  module_classes m = Some cs →
  module_classes (body_append m c) = Some (cs ++ [c]).
Proof.
  unfold module_classes, body_append. cbn [body].
  destruct (imports_ok (take 3 (body m))) eqn:E; [|discriminate].
  intros [= <-]. pose proof (imports_ok_length _ E) as Hlen.
  rewrite length_take in Hlen.
  rewrite take_app_le, E by lia. now rewrite drop_app_le by lia.
Qed.

Lemma module_classes_append_inv (m : Module_) (c : stmt) (cs' : list stmt) :
  is_class c = true →
  module_classes (body_append m c) = Some cs' →
  ∃ cs, module_classes m = Some cs ∧ cs' = cs ++ [c].
Proof.
  intros Hc. unfold module_classes, body_append. cbn [body].
  destruct (imports_ok (take 3 (body m ++ [c]))) eqn:E; [|discriminate].
  intros [= <-].
  destruct (decide (3 ≤ length (body m))%nat) as [Hle|Hlt].
  - rewrite take_app_le in E by lia. rewrite E.
    eexists. split; [reflexivity|]. now rewrite drop_app_le by lia.
  - exfalso. rewrite (imports_ok_class _ c Hc) in E; [discriminate|].
    rewrite take_ge by (rewrite length_app; simpl; lia).
    apply elem_of_app. right. left.
Qed.

Lemma class_ok_spec (c : stmt) :
  class_ok c = true ↔ class_shape c = true ∧ class_rejected c = false.
Proof.
  unfold class_ok. rewrite andb_true_iff, negb_true_iff. reflexivity.
Qed.

Lemma load_module_append (m : Module_) (c : stmt) (e : class_env) :
  load_module m = Returned e → class_ok c = true →
  load_module (body_append m c) = exec_class e c.
Proof.
  intros Hm [Hs Hr]%class_ok_spec. unfold load_module in *.
  destruct (module_classes m) as [cs|] eqn:Hcs; [|discriminate].
  rewrite (module_classes_append m c cs Hcs).
  rewrite forallb_app, existsb_app, foldl_app. cbn [forallb existsb foldl].
  destruct (forallb class_shape cs); [|discriminate].
  destruct (existsb class_rejected cs); [discriminate|].
  now rewrite Hs, Hr, Hm.
Qed.

Lemma load_module_append_inv (m : Module_) (c : stmt) (e' : class_env) :
  is_class c = true →
  load_module (body_append m c) = Returned e' →
  ∃ e, load_module m = Returned e ∧ exec_class e c = Returned e'
       ∧ class_ok c = true.
Proof.
  intros Hc. unfold load_module.
  destruct (module_classes (body_append m c)) as [cs'|] eqn:Hcs';
    [|discriminate].
  destruct (module_classes_append_inv m c cs' Hc Hcs') as (cs & -> & ->).
  rewrite forallb_app, existsb_app, foldl_app. cbn [forallb existsb foldl].
  destruct (forallb class_shape cs); [|discriminate].
  destruct (class_shape c) eqn:Hs; [|discriminate]. cbn [andb].
  destruct (existsb class_rejected cs); [discriminate|].
  destruct (class_rejected c) eqn:Hr; [discriminate|]. cbn [orb].
  match goal with
  | |- context [foldl ?f (Returned []) cs] =>
      destruct (foldl f (Returned []) cs) as [e| |]; try discriminate
  end.
  intros He. exists e. split; [reflexivity|]. split; [exact He|].
  apply class_ok_spec. auto.
Qed.

(** A class statement binds the name of the class in front of what was
    bound before; the ancestors are those of its base. *)
Lemma exec_class_Returned (e e' : class_env) (c : stmt) :
  exec_class e c = Returned e' →
  ∃ chain, e' = (class_name c, c :: chain) :: e
           ∧ (class_bases c = [Name "ABC" (Some Load)] → chain = []).
Proof.
  unfold exec_class.
  destruct (class_bases c) as [|[parent ctx| | |] [|??]]; try discriminate.
  case_bool_decide as Hp.
  - intros [= <-]. exists []. auto.
  - destruct (dict_get e parent) as [chain|]; [|discriminate].
    intros [= <-]. exists chain. split; [reflexivity|].
    intros [= -> _]. contradiction.
Qed.

(** What importing the module after a [new_node] call has bound, when the
    import succeeds. *)
Lemma load_new_node (m : Module_) (name : string)
    (fields : option (list (string * string))) (parent : string)
    (gi av gv : bool) (g : gset string) (e' : class_env) :
  load_module (new_node m name fields parent gi av gv g).1 = Returned e' →
  let c := node_class (mk_node_args name fields parent gi av gv) in
  ∃ e chain, load_module m = Returned e
             ∧ e' = (name, c :: chain) :: e
             ∧ dict_get e' name = Some (c :: chain)
             ∧ class_ok c = true.
Proof.
  intros Hl c. rewrite new_node_class in Hl. cbn [fst] in Hl.
  destruct (node_class_spec (mk_node_args name fields parent gi av gv))
    as (Hc & Hn & _).
  destruct (load_module_append_inv m c e' Hc Hl) as (e & He & Hx & Hok).
  destruct (exec_class_Returned e e' c Hx) as (chain & -> & _).
  fold c in Hn. cbn [a_name] in Hn. rewrite Hn.
  exists e, chain. split; [exact He|]. split; [reflexivity|].
  split; [|exact Hok]. cbn [dict_get]. now rewrite decide_True.
Qed.

Lemma chain_method_own (c fd : stmt) (chain : list stmt) (mname : string) :
  find_method c mname = Some fd → chain_method (c :: chain) mname = Some fd.
Proof. intros Hf. cbn [chain_method]. now rewrite Hf. Qed.

(** The members of a class the compiler takes are definitions it takes. *)
Lemma class_ok_method (c fd : stmt) (mname : string) :
  class_ok c = true → find_method c mname = Some fd →
  def_shape fd = true ∧ def_rejected fd = false.
Proof.
  intros [Hs Hr]%class_ok_spec Hf. unfold find_method in Hf.
  apply last_Some_elem_of, list_elem_of_filter in Hf as [Hd Hin].
  destruct c as [|cname bases kws cbody decos| | | | |]; try discriminate.
  cbn [class_body] in Hin.
  unfold class_rejected in Hr. cbn [class_body] in Hr.
  assert (Hrej : existsb def_rejected cbody = false)
    by (destruct cbody; [discriminate|exact Hr]).
  assert (Hmem : forallb member_ok cbody = true).
  { simpl in Hs. destruct bases as [|[parent ctx| | |] [|??]]; try discriminate.
    destruct kws; [|discriminate]. destruct decos; [|discriminate].
    apply andb_true_iff in Hs as [_ Hs]. exact Hs. }
  split.
  - rewrite forallb_forall in Hmem. apply list_elem_of_In, Hmem in Hin.
    destruct fd; try (exfalso; exact Hd). cbn [member_ok] in Hin.
    do 3 (apply andb_true_iff in Hin as [Hin _]). exact Hin.
  - destruct (def_rejected fd) eqn:E; [|reflexivity].
    assert (existsb def_rejected cbody = true); [|congruence].
    apply existsb_exists. exists fd. split; [now apply list_elem_of_In|exact E].
Qed.

End loading.

(** ** Dispatch: what the generated [accept] does *)

Section dispatch.

Context {W : Type} (getattr_ext : nat → string → option (@callable W)).

(** A call whose arguments bind runs the body in the bound environment. *)
Lemma call_function_bound (name : string) (a : arguments) (body : list stmt)
    (decorator_list : list expr) (returns : option expr)
    (pos : list value) (kw env : list (string * value)) :
  def_shape (FunctionDef name a body decorator_list returns) = true →
  def_rejected (FunctionDef name a body decorator_list returns) = false →
  bind_arguments a pos kw = Returned env →
  call_function getattr_ext
    (FunctionDef name a body decorator_list returns) pos kw
  = bind (exec_block getattr_ext env body) (λ r, ret (default VNone r)).
Proof.
  intros Hs Hr Hb. unfold call_function. now rewrite Hs, Hr, Hb.
Qed.

(** The generated [accept] and [visit_] methods are definitions the
    compiler takes, whatever the name they are generated for. *)
Lemma accept_def_compiles (name : string) (av : bool) :
  def_shape (accept_def name av) = true
  ∧ def_rejected (accept_def name av) = false.
Proof. destruct av; split; vm_compute; reflexivity. Qed.

Lemma visit_def_compiles (k : string) :
  def_shape (visit_def k) = true ∧ def_rejected (visit_def k) = false.
Proof. split; vm_compute; reflexivity. Qed.

Lemma filter_keywords_none (names : list string) (kw : list (string * value)) :
  Forall (λ n, n ∉ kw.*1) names →
  filter (λ kv : string * value, kv.1 ∈ names) kw = []
  ∧ filter (λ kv : string * value, kv.1 ∉ names) kw = kw.
Proof.
  intros Hn. induction kw as [|[k v] kw IH]; [split; reflexivity|].
  assert (Hk : k ∉ names).
  { intros Hin. rewrite Forall_forall in Hn. apply (Hn k Hin).
    simpl. set_solver. }
  destruct IH as [IH1 IH2].
  { eapply Forall_impl; [exact Hn|]. simpl. intros n Hnot. set_solver. }
  split.
  - rewrite filter_cons_False by exact Hk. exact IH1.
  - rewrite filter_cons_True by exact Hk. now rewrite IH2.
Qed.

(** The values of a call to [accept] bind as [self], [visitor], [*args]
    and [**kwargs] when no keyword is named [self] or [visitor]. *)
Lemma bind_accept_arguments (node V : value) (pos : list value)
    (kw : list (string * value)) :
  "self" ∉ kw.*1 → "visitor" ∉ kw.*1 →
  bind_arguments accept_arguments (node :: V :: pos) kw
  = Returned [("self", node); ("visitor", V);
              ("args", VTuple pos); ("kwargs", VDict kw)].
Proof.
  intros Hs Hv.
  destruct (filter_keywords_none ["self"; "visitor"] kw) as [Hnamed Hother].
  { repeat constructor; assumption. }
  unfold bind_arguments.
  cbn [accept_arguments posonlyargs args kwonlyargs defaults kw_defaults
       vararg kwarg app fmap list_fmap arg_name omap list_omap].
  rewrite Hnamed, Hother.
  rewrite (bool_decide_eq_false_2 (_ = None ∧ _))
    by (intros [? _]; discriminate).
  rewrite (bool_decide_eq_false_2 (_ = None ∧ _))
    by (intros [? _]; discriminate).
  rewrite (bool_decide_eq_false_2 (Exists _ _)) by (inversion 1).
  rewrite bool_decide_eq_true_2; [reflexivity|].
  simpl. repeat constructor; set_solver.
Qed.

(** A keyword named like one of the two named parameters clashes with the
    positional value already bound to it. *)
Lemma bind_accept_arguments_clash (node V x : value) (pos : list value)
    (k : string) :
  k = "self" ∨ k = "visitor" →
  bind_arguments accept_arguments (node :: V :: pos) [(k, x)]
  = Raised TypeError.
Proof. intros [-> | ->]; reflexivity. Qed.

Lemma accept_def_forwards (name : string) (av : bool) (node V : value)
    (pos : list value) (kw : list (string * value)) (σ : state) :
  NoDup kw.*1 → "self" ∉ kw.*1 → "visitor" ∉ kw.*1 →
  call_function getattr_ext (accept_def name av) (node :: V :: pos) kw σ
  = call_attr getattr_ext V ("visit_" +:+ name) (node :: pos) kw σ.
Proof.
  intros Hnd Hs Hv.
  destruct (accept_def_compiles name av) as [Hshape Hrej]. unfold accept_def in *.
  rewrite (call_function_bound "accept" accept_arguments (accept_body name)
             _ _ _ _ _ Hshape Hrej (bind_accept_arguments node V pos kw Hs Hv)).
  unfold call_attr, accept_body, keyword. simpl.
  unfold bind, ret, iterate, mapping. simpl.
  destruct (getattr getattr_ext V _ σ) as [[f|e|] σ']; try reflexivity.
  rewrite !app_nil_r, bool_decide_eq_true_2 by assumption.
  destruct (call_value getattr_ext f (node :: pos) kw σ') as [[?|?|] ?];
    reflexivity.
Qed.

(** C2, as amended.  For a kind generated with [generate_visit=True] in
    a module that Python imports, every visitor-like object [V] and every
    argument list in which no keyword is named [self] or [visitor],
    invoking the generated [accept] on a node with [V] and the arguments
    does what invoking [V.visit_<name>] with the node followed by the same
    positional and keyword arguments does: same result or exception, same
    final state. *)
Theorem accept_forwards_to_visit (m : Module_) (name : string)
    (fields : option (list (string * string))) (parent : string)
    (gi av : bool) (g : gset string) (e : class_env) (node V : value)
    (pos : list value) (kw : list (string * value)) (σ : state) :
  load_module (new_node m name fields parent gi av true g).1 = Returned e →
  NoDup kw.*1 → "self" ∉ kw.*1 → "visitor" ∉ kw.*1 →
  ∃ c, body (new_node m name fields parent gi av true g).1 = body m ++ [c]
       ∧ class_name c = name
       ∧ call_method_in getattr_ext e name "accept" node (V :: pos) kw σ
         = call_attr getattr_ext V ("visit_" +:+ name) (node :: pos) kw σ.
Proof.
  intros Hl Hnd Hs Hv.
  destruct (load_new_node m name fields parent gi av true g e Hl)
    as (e0 & chain & _ & _ & Hget & _).
  rewrite new_node_class.
  destruct (node_class_spec (mk_node_args name fields parent gi av true))
    as (_ & Hn & _ & Ha & _).
  eexists. split; [reflexivity|]. split; [exact Hn|].
  unfold call_method_in.
  rewrite Hget, (chain_method_own _ _ chain _ Ha).
  now apply accept_def_forwards.
Qed.

End dispatch.

Lemma accept_forwards_to_visit_witness :
  let V : nat → string → option (@callable unit) :=
    λ _ attr, Some (λ _ _, ret (VStr attr)) in
  let σ := {| heap := [{| obj_class := "Block";
                          obj_dict := [("label", VNone);
                                       ("body", VList [])] |}];
              world := () |} in
  let kw := [("depth", VInt 1)] in
  let m := (new_node file_module "AST" None "ABC" false true true
              visitor_names_init).1 in
  let fields := Some [("label", "Optional[str]"); ("body", "list[AST]")] in
  ∃ e, load_module (new_node m "Block" fields "AST" true false true
                      {["AST"]}).1 = Returned e
       ∧ NoDup kw.*1 ∧ ("self" ∉ kw.*1) ∧ ("visitor" ∉ kw.*1)
       ∧ ∃ c, body (new_node m "Block" fields "AST" true false true
                      {["AST"]}).1 = body m ++ [c]
              ∧ class_name c = "Block"
              ∧ call_method_in V e "Block" "accept" (VRef 0)
                  [VExt 0; VInt 7] kw σ
                = call_attr V (VExt 0) "visit_Block" [VRef 0; VInt 7] kw σ.
Proof.
  intros V σ kw m fields.
  assert (Hl : ∃ e, load_module (new_node m "Block" fields "AST" true false
                                   true {["AST"]}).1 = Returned e)
    by (eexists; vm_compute; reflexivity).
  destruct Hl as [e Hl]. exists e.
  assert (H1 : NoDup kw.*1) by (apply (bool_decide_unpack _); vm_compute; exact I).
  assert (H2 : "self" ∉ kw.*1) by (apply (bool_decide_unpack _); vm_compute; exact I).
  assert (H3 : "visitor" ∉ kw.*1)
    by (apply (bool_decide_unpack _); vm_compute; exact I).
  split; [exact Hl|]. split; [exact H1|]. split; [exact H2|].
  split; [exact H3|].
  exact (accept_forwards_to_visit V m "Block" fields "AST" true false
           {["AST"]} e (VRef 0) (VExt 0) [VInt 7] kw σ Hl H1 H2 H3).
Defined.

(** C2 as stated fails for a keyword argument named [visitor]: in the
    module made of the root [AST] and [Block(label, body)], which Python
    imports, [accept] raises [TypeError] (the parameter already has its
    positional value) and the visitor is never reached, while
    [visit_Block] called directly takes the keyword. *)
Lemma accept_keyword_counterexample :
  let V : nat → string → option (@callable unit) :=
    λ _ attr, Some (λ _ _, ret (VStr attr)) in
  let σ := {| heap := [{| obj_class := "Block";
                          obj_dict := [("label", VNone);
                                       ("body", VList [])] |}];
              world := () |} in
  let m := (new_node file_module "AST" None "ABC" false true true
              visitor_names_init).1 in
  let fields := Some [("label", "Optional[str]"); ("body", "list[AST]")] in
  let m' := (new_node m "Block" fields "AST" true false true {["AST"]}).1 in
  let kw := [("visitor", VInt 1)] in
  ∃ e, load_module m' = Returned e
       ∧ NoDup kw.*1
       ∧ call_method_in V e "Block" "accept" (VRef 0) [VExt 0] kw σ
         = (Raised TypeError, σ)
       ∧ call_attr V (VExt 0) "visit_Block" [VRef 0] kw σ
         = (Returned (VStr "visit_Block"), σ).
Proof.
  intros V σ m fields m' kw. eexists.
  split; [vm_compute; reflexivity|].
  split; [apply (bool_decide_unpack _); vm_compute; exact I|].
  split; reflexivity.
Qed.

(** ** Construction: what the generated [__init__] does *)

Section construction.

Context {W : Type} (getattr_ext : nat → string → option (@callable W)).

Lemma dict_set_fresh {A} (d : list (string * A)) (k : string) (v : A) :
  k ∉ d.*1 → dict_set d k v = d ++ [(k, v)].
Proof.
  induction d as [|[k' v'] d IH]; intros Hk; simpl; [reflexivity|].
  rewrite decide_False by (intros ->; apply Hk; simpl; set_solver).
  rewrite IH; [reflexivity|]. intros Hin. apply Hk. simpl. set_solver.
Qed.

Lemma dict_get_zip {A} (names : list string) (vs : list A) (i : nat)
    (n : string) (v : A) :
  NoDup names → names !! i = Some n → vs !! i = Some v →
  dict_get (zip names vs) n = Some v.
Proof.
  intros Hnd. revert vs i.
  induction Hnd as [|n' names Hnot Hnd IH]; intros vs i Hn Hv; [inversion Hn|].
  destruct vs as [|v' vs]; [inversion Hv|].
  destruct i as [|i]; simpl in *.
  - injection Hn as ->. injection Hv as ->. now rewrite decide_True.
  - rewrite decide_False; [eauto|].
    intros ->. apply Hnot. eapply list_elem_of_lookup_2. exact Hn.
Qed.

Lemma dict_get_zip_None {A} (names : list string) (vs : list A) (n : string) :
  n ∉ names → dict_get (zip names vs) n = None.
Proof.
  revert vs. induction names as [|n' names IH]; intros vs Hn; [reflexivity|].
  destruct vs as [|v vs]; [reflexivity|]. simpl.
  rewrite decide_False by (intros ->; set_solver).
  apply IH. set_solver.
Qed.

(** The body of the generated [__init__], in any environment that binds
    [self] to an instance: one [setattr] per field, in order, with the
    value the environment gives the field's name. *)
Lemma exec_init_body (env : list (string * value)) (l : nat) (cname : string)
    (fields : list (string * string)) :
  dict_get env "self" = Some (VRef l) →
  fields_ok fields = true →
  Forall (λ n, is_Some (dict_get env n)) fields.*1 →
  ∀ (d : list (string * value)) (σ : @state W),
    heap σ !! l = Some {| obj_class := cname; obj_dict := d |} →
    exec_block getattr_ext env (def_body (init_def fields)) σ
    = (Returned None,
       {| heap :=
            <[l := {| obj_class := cname;
                      obj_dict :=
                        foldl (λ d n,
                                 dict_set d n (default VNone (dict_get env n)))
                              d fields.*1 |}]> (heap σ);
          world := world σ |}).
Proof.
  intros Hself. unfold init_def, def_body.
  induction fields as [|[n t] fields IH]; intros Hok Hall d σ Hl.
  - simpl. unfold ret. rewrite list_insert_id by exact Hl.
    destruct σ; reflexivity.
  - rewrite fmap_cons in Hall. apply Forall_cons_1 in Hall as [[v Hv] Hall].
    cbn [fst] in Hv.
    cbn [fields_ok forallb fst snd] in Hok.
    apply andb_true_iff in Hok as [[Hn _]%andb_true_iff Hok].
    rewrite !fmap_cons. cbn [exec_block exec_stmt eval_expr fst foldl].
    rewrite Hv, Hself. unfold bind, ret, setattr.
    rewrite Hn, Hl. cbn [obj_class obj_dict heap world default].
    rewrite (IH Hok Hall (dict_set d n v)).
    + cbn [heap world]. rewrite list_insert_insert_eq. reflexivity.
    + cbn [heap]. apply list_lookup_insert_eq.
      eapply lookup_lt_Some. exact Hl.
Qed.

Lemma init_arg_names (fields : list (string * string)) :
  arg_name <$> ((λ '(f_name, f_type),
                   mk_arg f_name (Some (Name f_type (Some Load)))) <$> fields)
  = fields.*1.
Proof.
  induction fields as [|[n t] fields IH]; [reflexivity|].
  rewrite !fmap_cons, IH. reflexivity.
Qed.

Lemma init_parameters (fields : list (string * string)) :
  parameters (init_arguments fields) = "self" :: fields.*1.
Proof.
  unfold parameters, init_arguments. simpl.
  rewrite !app_nil_r, init_arg_names. reflexivity.
Qed.

Lemma fst_zip_take {A B} (l : list A) (k : list B) :
  (zip l k).*1 = take (length k) l.
Proof.
  revert k. induction l as [|x l IH]; intros [|y k]; simpl; try reflexivity.
  f_equal. apply IH.
Qed.

(** Positional values bind to [self] and the fields in order when there is
    one value per field. *)
Lemma bind_init_arguments (fields : list (string * string)) (self : value)
    (vs : list value) :
  length vs = length fields →
  bind_arguments (init_arguments fields) (self :: vs) []
  = Returned (("self", self) :: zip fields.*1 vs).
Proof.
  intros Hlen. unfold bind_arguments, init_arguments. simpl.
  rewrite !app_nil_r, init_arg_names.
  rewrite drop_ge by (rewrite length_fmap; lia).
  case_bool_decide as H1; [destruct H1 as [_ Hne]; now destruct Hne|].
  case_bool_decide as H2; [reflexivity|]. exfalso. apply H2.
  change (list_fmap (string * value)%type string fst (zip fields.*1 vs))
    with ((zip fields.*1 vs).*1).
  rewrite fst_zip by (rewrite length_fmap; lia).
  apply Forall_forall. intros p Hp. exact Hp.
Qed.

(** Too many or too few values are a [TypeError]. *)
Lemma bind_init_arguments_arity (fields : list (string * string))
    (self : value) (vs : list value) :
  NoDup ("self" :: fields.*1) →
  length vs ≠ length fields →
  bind_arguments (init_arguments fields) (self :: vs) [] = Raised TypeError.
Proof.
  intros Hnd Hlen. unfold bind_arguments, init_arguments. simpl.
  rewrite !app_nil_r, init_arg_names.
  destruct (decide (length fields < length vs)) as [Hlt|Hge].
  - case_bool_decide as H1; [reflexivity|]. exfalso. apply H1.
    split; [reflexivity|]. intros Hnil.
    apply (f_equal length) in Hnil. rewrite length_drop, length_fmap in Hnil.
    simpl in Hnil. lia.
  - rewrite drop_ge by (rewrite length_fmap; lia).
    case_bool_decide as H1; [reflexivity|].
    case_bool_decide as Hall; [|reflexivity]. exfalso.
    change (list_fmap (string * value)%type string fst (zip fields.*1 vs))
      with ((zip fields.*1 vs).*1) in Hall.
    rewrite fst_zip_take in Hall.
    assert (Hi : length vs < length fields.*1) by (rewrite length_fmap; lia).
    apply lookup_lt_is_Some_2 in Hi as [n Hn].
    rewrite Forall_forall in Hall.
    assert (Hin : n ∈ take (length vs) fields.*1).
    { specialize (Hall n). simpl in Hall.
      assert (n ∈ "self" :: take (length vs) fields.*1) as Hin'
        by (apply Hall; right; eapply list_elem_of_lookup_2; exact Hn).
      apply elem_of_cons in Hin' as [->|Hin']; [|exact Hin'].
      apply NoDup_cons in Hnd as [Hnot _]. exfalso. apply Hnot.
      eapply list_elem_of_lookup_2. exact Hn. }
    apply list_elem_of_lookup_1 in Hin as [j Hj].
    pose proof (lookup_lt_Some _ _ _ Hj) as Hjlt.
    rewrite length_take in Hjlt.
    rewrite lookup_take_lt in Hj by lia.
    apply NoDup_cons in Hnd as [_ Hnd].
    pose proof (NoDup_lookup _ _ _ _ Hnd Hj Hn). lia.
Qed.

Lemma foldl_dict_set_zip (names : list string) (vs : list value)
    (env d : list (string * value)) :
  NoDup names → length vs = length names →
  (∀ n, n ∈ names → n ∉ d.*1) →
  (∀ i n v, names !! i = Some n → vs !! i = Some v → dict_get env n = Some v) →
  foldl (λ d n, dict_set d n (default VNone (dict_get env n))) d names
  = d ++ zip names vs.
Proof.
  intros Hnd. revert vs d.
  induction Hnd as [|n names Hnot Hnd IH]; intros vs d Hlen Hfresh Henv.
  - simpl. now rewrite app_nil_r.
  - destruct vs as [|v vs]; [discriminate|]. simpl.
    rewrite (Henv 0 n v) by reflexivity. simpl.
    rewrite dict_set_fresh by (apply Hfresh; left).
    rewrite (IH vs).
    + now rewrite <- app_assoc.
    + simpl in Hlen. lia.
    + intros n' Hin. rewrite fmap_app. simpl.
      intros [Hd|Hd]%elem_of_app.
      * apply (Hfresh n'); [now right|exact Hd].
      * apply list_elem_of_singleton in Hd as ->. contradiction.
    + intros i n' v' Hn' Hv'. apply (Henv (S i)); assumption.
Qed.

Lemma signature_init_arguments (fields : list (string * string)) :
  signature_ok (init_arguments fields) = fields_ok fields.
Proof.
  unfold signature_ok, init_arguments.
  cbn [posonlyargs args vararg kwonlyargs kwarg kw_defaults option_list app
       length forallb].
  rewrite !app_nil_r, bool_decide_eq_true_2, andb_true_r by reflexivity.
  change (arg_ok (mk_arg "self" None)) with true. cbn [andb].
  unfold fields_ok. induction fields as [|[n t] fields IH]; [reflexivity|].
  rewrite fmap_cons. cbn [forallb fst snd]. rewrite IH. reflexivity.
Qed.

(** The generated [__init__] is a definition the compiler takes exactly
    when there is a field, no field name occurs twice or is [self], and
    names and type texts are plain. *)
Lemma init_def_compiles (fields : list (string * string)) :
  def_shape (init_def fields) = true ∧ def_rejected (init_def fields) = false
  ↔ fields ≠ [] ∧ NoDup ("self" :: fields.*1) ∧ fields_ok fields = true.
Proof.
  unfold init_def. cbn [def_shape def_rejected annotation_ok].
  rewrite signature_init_arguments, !andb_true_r, init_parameters.
  destruct fields as [|f fields].
  - cbn [fmap list_fmap]. split; [intros [_ ?]; discriminate|].
    intros [Hne _]. now destruct Hne.
  - rewrite fmap_cons. rewrite negb_false_iff, bool_decide_eq_true.
    split; [intros [? ?]; split; [discriminate|auto]|intros (_ & ? & ?); auto].
Qed.

Lemma fields_ok_plain (fields : list (string * string)) :
  fields_ok fields = true → Forall (λ n, plain_name n = true) fields.*1.
Proof.
  unfold fields_ok. rewrite forallb_forall, Forall_fmap, Forall_forall.
  intros Hall f Hin. apply list_elem_of_In, Hall, andb_true_iff in Hin as [Hn _].
  exact Hn.
Qed.

(** Running the generated [__init__] on an instance with an empty
    [__dict__] and one value per field. *)
Lemma init_def_runs (fields : list (string * string)) (vs : list value)
    (l : nat) (cname : string) (σ : @state W) :
  fields ≠ [] → NoDup ("self" :: fields.*1) → fields_ok fields = true →
  length vs = length fields →
  heap σ !! l = Some {| obj_class := cname; obj_dict := [] |} →
  call_function getattr_ext (init_def fields) (VRef l :: vs) [] σ
  = (Returned VNone,
     {| heap := <[l := {| obj_class := cname;
                          obj_dict := zip fields.*1 vs |}]> (heap σ);
        world := world σ |}).
Proof.
  intros Hne Hnd Hok Hlen Hl.
  pose proof (NoDup_cons_1_1 _ _ Hnd) as Hself.
  pose proof (NoDup_cons_1_2 _ _ Hnd) as Hnames.
  destruct (proj2 (init_def_compiles fields)) as [Hshape Hrej]; [auto|].
  unfold init_def in *.
  erewrite call_function_bound;
    [|exact Hshape|exact Hrej
     |exact (bind_init_arguments fields (VRef l) vs Hlen)].
  assert (Henv : ∀ i n v, fields.*1 !! i = Some n → vs !! i = Some v →
                 dict_get (("self", VRef l) :: zip fields.*1 vs) n = Some v).
  { intros i n v Hn Hv. cbn [dict_get]. rewrite decide_False.
    - eapply dict_get_zip; eassumption.
    - intros <-. apply Hself. eapply list_elem_of_lookup_2. exact Hn. }
  assert (Hs : dict_get (("self", VRef l) :: zip fields.*1 vs) "self"
               = Some (VRef l)) by (cbn [dict_get]; now rewrite decide_True).
  unfold bind.
  change (exec_block getattr_ext (("self", VRef l) :: zip fields.*1 vs) _ σ)
    with (exec_block getattr_ext (("self", VRef l) :: zip fields.*1 vs)
            (def_body (init_def fields)) σ).
  rewrite (exec_init_body _ l cname fields Hs Hok) with (d := []);
    [|  |exact Hl].
  - unfold ret. cbn [default].
    rewrite (foldl_dict_set_zip fields.*1 vs _ [] Hnames); auto.
    + now rewrite length_fmap.
    + intros n _. simpl. set_solver.
  - apply Forall_forall. intros n Hin.
    apply list_elem_of_lookup_1 in Hin as [i Hn].
    assert (Hi : i < length vs).
    { apply lookup_lt_Some in Hn. rewrite length_fmap in Hn. lia. }
    apply lookup_lt_is_Some_2 in Hi as [v Hv].
    exists v. eapply Henv; eassumption.
Qed.

Lemma init_def_arity (fields : list (string * string)) (self : value)
    (vs : list value) (σ : @state W) :
  fields ≠ [] → NoDup ("self" :: fields.*1) → fields_ok fields = true →
  length vs ≠ length fields →
  call_function getattr_ext (init_def fields) (self :: vs) [] σ
  = (Raised TypeError, σ).
Proof.
  intros Hne Hnd Hok Hlen.
  destruct (proj2 (init_def_compiles fields)) as [Hshape Hrej]; [auto|].
  unfold call_function, init_def in *. rewrite Hshape, Hrej.
  now rewrite bind_init_arguments_arity.
Qed.

(** C3, as amended.  Take a declaration with [generate_init=True] in a
    module that Python imports (so there is at least one field, the field
    names are pairwise distinct, none is [self], and names and type texts
    are plain) whose class has no abstract method left.  The generated
    constructor takes [self] and then exactly the declared fields, in
    declared order; calling the class with one value per field returns a
    new instance whose attribute [ni] is [vi] for every [i] and changes
    nothing else; with any other number of values the call raises
    [TypeError] (the instance allocated for it is left behind,
    unreachable). *)
Theorem constructor_sets_fields (m : Module_) (name : string)
    (fields : option (list (string * string))) (parent : string)
    (av gv : bool) (g : gset string) (e : class_env) (vs : list value)
    (σ : @state W) :
  load_module (new_node m name fields parent true av gv g).1 = Returned e →
  abstract_class e name = false →
  let fs := default [] fields in
  ∃ c init,
    body (new_node m name fields parent true av gv g).1 = body m ++ [c]
    ∧ class_name c = name
    ∧ find_method c "__init__" = Some init
    ∧ def_arguments init = Some (init_arguments fs)
    ∧ parameters (init_arguments fs) = "self" :: fs.*1
    ∧ (fs ≠ [] ∧ NoDup ("self" :: fs.*1) ∧ fields_ok fs = true)
    ∧ (length vs = length fs →
         let b := VRef (length (heap σ)) in
         let σ' := {| heap := heap σ ++ [{| obj_class := name;
                                            obj_dict := zip fs.*1 vs |}];
                      world := world σ |} in
         instantiate getattr_ext e name vs [] σ = (Returned b, σ')
         ∧ (∀ i n v, fs.*1 !! i = Some n → vs !! i = Some v →
              getattr getattr_ext b n σ' = (Returned v, σ')))
    ∧ (length vs ≠ length fs →
         instantiate getattr_ext e name vs [] σ
         = (Raised TypeError,
            {| heap := heap σ ++ [{| obj_class := name; obj_dict := [] |}];
               world := world σ |})).
Proof.
  intros Hl Habs fs.
  destruct (load_new_node m name fields parent true av gv g e Hl)
    as (e0 & chain & _ & _ & Hget & Hok).
  rewrite new_node_class.
  destruct (node_class_spec (mk_node_args name fields parent true av gv))
    as (_ & Hn & _ & _ & Hi & _).
  cbn [a_name a_generate_init a_fields] in Hn, Hi. fold fs in Hi.
  destruct (class_ok_method _ _ _ Hok Hi) as [Hshape Hrej].
  destruct (proj1 (init_def_compiles fs)) as (Hne & Hnd & Hfs); [auto|].
  exists (node_class (mk_node_args name fields parent true av gv)),
         (init_def fs).
  split; [reflexivity|]. split; [exact Hn|]. split; [exact Hi|].
  split; [reflexivity|]. split; [apply init_parameters|].
  split; [auto|].
  assert (Hnames : abstract_names
                     (node_class (mk_node_args name fields parent true av gv)
                      :: chain) = []).
  { unfold abstract_class in Habs. rewrite Hget in Habs.
    now destruct (abstract_names _). }
  unfold instantiate.
  rewrite Hget, Hnames, (chain_method_own _ _ chain _ Hi).
  split.
  - intros Hlen.
    unfold bind at 1, new_instance. unfold bind.
    rewrite (init_def_runs fs vs (length (heap σ)) name); cbn [heap world];
      [|assumption..|now rewrite list_lookup_middle].
    assert (Hσ : <[length (heap σ) :=
                     {| obj_class := name; obj_dict := zip fs.*1 vs |}]>
                   (heap σ ++ [{| obj_class := name; obj_dict := [] |}])
                 = heap σ ++ [{| obj_class := name;
                                 obj_dict := zip fs.*1 vs |}]).
    { replace (length (heap σ)) with (length (heap σ) + 0) at 1 by lia.
      now rewrite insert_app_r. }
    rewrite Hσ. split; [reflexivity|].
    intros i n v Hin Hiv. unfold getattr. cbn [heap].
    rewrite list_lookup_middle by reflexivity. cbn [obj_dict].
    rewrite (dict_get_zip fs.*1 vs i n v) by
      (try assumption; now apply NoDup_cons in Hnd as [_ ?]).
    pose proof (fields_ok_plain fs Hfs) as Hplain.
    rewrite Forall_forall in Hplain.
    rewrite Hplain by (eapply list_elem_of_lookup_2; exact Hin).
    reflexivity.
  - intros Hlen. unfold bind at 1, new_instance. unfold bind.
    now rewrite init_def_arity.
Qed.

End construction.

Lemma constructor_sets_fields_witness :
  let V : nat → string → option (@callable unit) := λ _ _, None in
  let σ := {| heap := []; world := () |} in
  let m := (new_node file_module "AST" None "ABC" false true true
              visitor_names_init).1 in
  let fields := Some [("label", "Optional[str]"); ("body", "list[AST]")] in
  ∃ e, load_module (new_node m "Block" fields "AST" true false true
                      {["AST"]}).1 = Returned e
       ∧ abstract_class e "Block" = false
       ∧ instantiate V e "Block" [VNone; VList []] [] σ
         = (Returned (VRef 0),
            {| heap := [{| obj_class := "Block";
                           obj_dict := [("label", VNone);
                                        ("body", VList [])] |}];
               world := () |}).
Proof.
  intros V σ m fields.
  assert (Hl : ∃ e, load_module (new_node m "Block" fields "AST" true false
                                   true {["AST"]}).1 = Returned e
                    ∧ abstract_class e "Block" = false)
    by (eexists; split; vm_compute; reflexivity).
  destruct Hl as (e & Hl & Habs). exists e.
  split; [exact Hl|]. split; [exact Habs|].
  destruct (constructor_sets_fields V m "Block" fields "AST" false true
              {["AST"]} e [VNone; VList []] σ Hl Habs)
    as (c & init & _ & _ & _ & _ & _ & _ & Hrun & _).
  exact (proj1 (Hrun eq_refl)).
Defined.

(** C3 as stated fails in three ways, each in a module whose other classes
    Python imports.  A field named [self]: no field name occurs twice, yet
    the generated [__init__(self, self)] repeats a parameter, the compiler
    refuses the module and there is no class to construct.  No field at
    all: the generated [__init__] has no statement in its body, and the
    module is refused likewise.  A class generated without [accept] under
    the root: the module is imported, but the class inherits the abstract
    [accept] and calling it raises [TypeError] before an instance is
    made. *)
Lemma constructor_self_field_counterexample :
  let V : nat → string → option (@callable unit) := λ _ _, None in
  let σ := {| heap := []; world := () |} in
  let m := (new_node file_module "AST" None "ABC" false true true
              visitor_names_init).1 in
  (∃ e, load_module m = Returned e)
  ∧ NoDup [("self", "AST")].*1
  ∧ parameters (init_arguments [("self", "AST")]) = ["self"; "self"]
  ∧ load_module (new_node m "Ref" (Some [("self", "AST")]) "AST" true false
                   true {["AST"]}).1
    = Raised SyntaxError
  ∧ def_body (init_def []) = []
  ∧ load_module (new_node m "Leaf" None "AST" true false true {["AST"]}).1
    = Raised SyntaxError
  ∧ ∃ e, load_module (new_node m "Note" (Some [("text", "str")]) "AST" true
                        false false {["AST"]}).1 = Returned e
         ∧ abstract_class e "Note" = true
         ∧ instantiate V e "Note" [VStr "x"] [] σ = (Raised TypeError, σ).
Proof.
  intros V σ m.
  split; [eexists; vm_compute; reflexivity|].
  split; [apply (bool_decide_unpack _); vm_compute; exact I|].
  split; [reflexivity|]. split; [vm_compute; reflexivity|].
  split; [reflexivity|]. split; [vm_compute; reflexivity|].
  eexists. split; [vm_compute; reflexivity|]. split; reflexivity.
Qed.

(** ** The root's abstract [accept] *)

Section abstract_root.

Context {W : Type} (getattr_ext : nat → string → option (@callable W)).

(** C7, as amended.  With [abstract_visit=True], as for the root, the
    generated [accept] is decorated with [abstractmethod] and has the very
    body every other [accept] has: it forwards to [visit_<name>] of the
    visitor.  The flag changes the decorator list of [accept] and nothing
    else: the two calls that differ in the flag alone leave the same
    [visitor_names] and the same module but for the class they append,
    the two classes have the same name, base and members but for [accept],
    and the two [accept] differ in the decorator list alone.  Without
    [accept] ([generate_visit=False]) the flag changes nothing at all. *)
Theorem abstract_accept_keeps_forwarding (m : Module_) (name : string)
    (fields : option (list (string * string))) (parent : string)
    (gi gv : bool) (g : gset string) (node V : value) (pos : list value)
    (σ : @state W) :
  let on := new_node m name fields parent gi true gv g in
  let off := new_node m name fields parent gi false gv g in
  on.2 = off.2
  ∧ type_ignores on.1 = type_ignores off.1
  ∧ ∃ body_on body_off,
      body on.1
      = body m ++ [ClassDef name [Name parent (Some Load)] [] body_on []]
      ∧ body off.1
        = body m ++ [ClassDef name [Name parent (Some Load)] [] body_off []]
      ∧ Forall2 (λ s s',
                   s = s'
                   ∨ ∃ a b r,
                       s = FunctionDef "accept" a b
                             [Name "abstractmethod" (Some Load)] r
                       ∧ s' = FunctionDef "accept" a b [] r)
          body_on body_off
      ∧ (gv = false → body_on = body_off)
      ∧ (gv = true →
           last body_on = Some (accept_def name true)
           ∧ last body_off = Some (accept_def name false)
           ∧ def_decorators (accept_def name true)
             = [Name "abstractmethod" (Some Load)]
           ∧ def_decorators (accept_def name false) = []
           ∧ def_body (accept_def name true)
             = [Return (Some
                  (Call (Attribute (Name "visitor" (Some Load))
                           ("visit_" +:+ name) Load)
                        [Name "self" (Some Load);
                         Starred (Name "args" (Some Load)) Load]
                        [(None, Name "kwargs" (Some Load))]))]
           ∧ call_function getattr_ext (accept_def name true)
               (node :: V :: pos) [] σ
             = call_attr getattr_ext V ("visit_" +:+ name) (node :: pos) []
                 σ).
Proof.
  intros on off. subst on off. unfold new_node.
  cbn [fst snd body_append body type_ignores].
  split; [reflexivity|]. split; [reflexivity|].
  eexists _, _. split; [reflexivity|]. split; [reflexivity|].
  assert (Hsnoc : ∀ (l : list stmt) (x : stmt),
            match l ++ [x] with [] => [Pass] | _ :: _ => l ++ [x] end
            = l ++ [x]) by (intros [|??] ?; reflexivity).
  destruct gv.
  - rewrite !Hsnoc. split; [|split; [discriminate|]].
    + apply Forall2_app.
      * apply Forall_Forall2_diag, Forall_forall. intros s _. now left.
      * constructor; [|constructor]. right. unfold accept_def. eauto.
    + intros _. rewrite !last_snoc.
      repeat (split; [reflexivity|]).
      apply accept_def_forwards; [constructor|simpl; set_solver..].
  - split; [|split; [reflexivity|discriminate]].
    apply Forall_Forall2_diag, Forall_forall. intros s _. now left.
Qed.

End abstract_root.

(** C7 as stated fails: the [accept] of the root class that [main]
    generates is abstract and still has the forwarding body; called (as a
    subclass may through [super()]) it reaches [visit_AST]. *)
Lemma root_accept_counterexample :
  let V : nat → string → option (@callable unit) :=
    λ _ attr, Some (λ _ _, ret (VStr attr)) in
  let σ := {| heap := [{| obj_class := "Block"; obj_dict := [] |}];
              world := () |} in
  let m := (main file_module visitor_names_init).1 in
  ∃ root fd,
    classes m !! 0 = Some root
    ∧ class_name root = "AST"
    ∧ find_method root "accept" = Some fd
    ∧ def_decorators fd = [Name "abstractmethod" (Some Load)]
    ∧ def_body fd
      = [Return (Some
           (Call (Attribute (Name "visitor" (Some Load)) "visit_AST" Load)
                 [Name "self" (Some Load);
                  Starred (Name "args" (Some Load)) Load]
                 [(None, Name "kwargs" (Some Load))]))]
    ∧ def_body fd ≠ [Pass]
    ∧ call_function V fd [VRef 0; VExt 0] [] σ
      = (Returned (VStr "visit_AST"), σ).
Proof.
  intros V σ m. eexists _, _.
  split; [reflexivity|]. split; [reflexivity|]. split; [reflexivity|].
  split; [reflexivity|]. split; [reflexivity|]. split; [discriminate|].
  reflexivity.
Qed.

(** ** The run of [main] *)

Section scenario.

Context `{SetOrder}.
Context {W : Type} (getattr_ext : nat → string → option (@callable W)).

Lemma main_eq (m : Module_) (g : gset string) : main m g = run main_args m g.
Proof. reflexivity. Qed.

Lemma node_definitions_run (l : list node_args) (g : gset string) :
  node_definitions (run l file_module g).1 = node_class <$> l.
Proof.
  rewrite run_eq. unfold node_definitions, classes. cbn [fst body].
  rewrite !filter_app, classes_node_classes, filter_cons_True by exact I.
  rewrite filter_nil. simpl. apply removelast_last.
Qed.

Lemma visit_not_imported (k : string) : "visit_" +:+ k ∉ imported.
Proof.
  unfold imported. intros Hin.
  repeat (apply elem_of_cons in Hin as [E|Hin]; [cbv in E; discriminate|]).
  inversion Hin.
Qed.

(** The visitor class is one the compiler takes when it has a method and
    the names it was generated for are plain. *)
Lemma visitor_class_ok (l : list string) :
  l ≠ [] → Forall (λ k, plain_name ("visit_" +:+ k) = true) l →
  class_ok
    (ClassDef "ASTVisitor" [Name "ABC" (Some Load)] [] (visit_def <$> l) [])
  = true.
Proof.
  intros Hne Hall. apply class_ok_spec. split.
  - cbn [class_shape].
    change (plain_name "ASTVisitor") with true.
    change (plain_name "ABC") with true.
    rewrite (bool_decide_eq_true_2 ("ASTVisitor" ∉ imported))
      by (apply (bool_decide_unpack _); vm_compute; exact I).
    cbn [andb]. apply forallb_forall. intros s Hs.
    apply list_elem_of_In, list_elem_of_fmap in Hs as (k & -> & Hk).
    rewrite Forall_forall in Hall. specialize (Hall k Hk).
    destruct (visit_def_compiles k) as [Hshape _].
    unfold visit_def in *. cbn [member_ok]. rewrite Hshape, Hall.
    rewrite (bool_decide_eq_true_2 (_ ∉ imported))
      by apply visit_not_imported.
    cbn [posonlyargs kwonlyargs kw_defaults defaults forallb stmt_ok].
    now rewrite orb_true_r.
  - unfold class_rejected. cbn [class_body].
    destruct l as [|k l]; [contradiction|]. rewrite fmap_cons.
    destruct (existsb def_rejected (visit_def k :: (visit_def <$> l))) eqn:E;
      [|reflexivity].
    apply existsb_exists in E as (s & Hs & Hrej).
    rewrite <- fmap_cons in Hs.
    apply list_elem_of_In, list_elem_of_fmap in Hs as (k' & -> & _).
    destruct (visit_def_compiles k') as [_ Hrej']. congruence.
Qed.

(** What importing the module [main] generates binds. *)
Lemma main_loads :
  let m := (run main_args file_module visitor_names_init).1 in
  let AST := node_class (mk_node_args "AST" None "ABC" false true true) in
  let Block :=
    node_class
      (mk_node_args "Block"
         (Some [("label", "Optional[str]"); ("body", "list[AST]")])
         "AST" true false true) in
  ∃ e0, load_module m = Returned (("ASTVisitor", [visitor_class m]) :: e0)
        ∧ dict_get e0 "AST" = Some [AST]
        ∧ dict_get e0 "Block" = Some [Block; AST].
Proof.
  intros m AST Block.
  set (m0 := {| body := body file_module ++ (node_class <$> main_args);
                type_ignores := [] |}).
  assert (H0 : ∃ e0, load_module m0 = Returned e0
                     ∧ dict_get e0 "AST" = Some [AST]
                     ∧ dict_get e0 "Block" = Some [Block; AST])
    by (eexists; split; [vm_compute; reflexivity|split; reflexivity]).
  destruct H0 as (e0 & He0 & HA & HB). exists e0. split; [|auto].
  subst m. unfold visitor_class. rewrite run_eq. cbn [fst body].
  rewrite last_snoc. cbn [default].
  set (v := ClassDef "ASTVisitor" _ _ _ _).
  change {| body := (body file_module ++ (node_class <$> main_args)) ++ [v];
            type_ignores := type_ignores file_module |}
    with (body_append m0 v).
  rewrite (load_module_append m0 v e0 He0); [reflexivity|].
  apply visitor_class_ok.
  - intros Hnil. apply (f_equal length) in Hnil.
    rewrite set_iter_perm in Hnil. unfold visitor_names_init in Hnil.
    rewrite (left_id_L ∅ (∪)), elements_list_to_set in Hnil
      by (apply (bool_decide_unpack _); vm_compute; exact I).
    discriminate.
  - apply Forall_forall. intros k Hk%elem_of_set_iter.
    unfold visitor_names_init in Hk.
    rewrite (left_id_L ∅ (∪)), elem_of_list_to_set in Hk.
    change (visit_names main_args)
      with ["AST"; "Module"; "Block"; "If"; "While"; "Do"] in Hk.
    repeat (apply elem_of_cons in Hk as [->|Hk]; [reflexivity|]).
    inversion Hk.
Qed.

(** C8, as amended.  The calls of [main] yield six node definitions, [AST],
    [Module], [Block], [If], [While] and [Do], and a visitor that requires
    exactly the six methods [visit_AST] ... [visit_Do] and declares no
    other: they are the abstract names that keep [ASTVisitor] from being
    instantiated.  Python imports the module; in it the root [AST] is
    abstract and [Block], which overrides the root's [accept], is not.
    Calling [Block(label=None, body=[])] returns a new instance with these
    two attributes, and calling its [accept] with a visitor that has all
    six methods calls the visitor's [visit_Block] with the new instance
    and no other argument. *)
Theorem main_scenario (h : nat) (σ : @state W) :
  let m := (main file_module visitor_names_init).1 in
  (∀ c, c ∈ required_capabilities m → is_Some (getattr_ext h c)) →
  class_name <$> node_definitions m
  = ["AST"; "Module"; "Block"; "If"; "While"; "Do"]
  ∧ required_capabilities m
    ≡ₚ ["visit_AST"; "visit_Module"; "visit_Block"; "visit_If";
        "visit_While"; "visit_Do"]
  ∧ capabilities m = required_capabilities m
  ∧ ∃ e visit_Block,
      load_module m = Returned e
      ∧ dict_get e "ASTVisitor" = Some [visitor_class m]
      ∧ abstract_names [visitor_class m] = required_capabilities m
      ∧ abstract_class e "AST" = true
      ∧ abstract_class e "Block" = false
      ∧ getattr_ext h "visit_Block" = Some visit_Block
      ∧ let b := VRef (length (heap σ)) in
        let σ' := {| heap := heap σ
                             ++ [{| obj_class := "Block";
                                    obj_dict := [("label", VNone);
                                                 ("body", VList [])] |}];
                     world := world σ |} in
        instantiate getattr_ext e "Block" []
          [("label", VNone); ("body", VList [])] σ
        = (Returned b, σ')
        ∧ call_method_in getattr_ext e "Block" "accept" b [VExt h] [] σ'
          = visit_Block [b] [] σ'.
Proof.
  intros m Himpl. subst m. rewrite main_eq in *.
  assert (Hreq : required_capabilities
                   (run main_args file_module visitor_names_init).1
                 ≡ₚ ["visit_AST"; "visit_Module"; "visit_Block"; "visit_If";
                     "visit_While"; "visit_Do"]).
  { rewrite required_run, set_iter_perm.
    unfold visitor_names_init. rewrite (left_id_L ∅ (∪)).
    rewrite elements_list_to_set; [reflexivity|].
    apply (bool_decide_unpack _). vm_compute. exact I. }
  split; [rewrite node_definitions_run; reflexivity|].
  split; [exact Hreq|].
  split; [now rewrite capabilities_run, required_run|].
  destruct (Himpl "visit_Block") as [visit_Block Hvb].
  { rewrite Hreq. set_solver. }
  set (fs := [("label", "Optional[str]"); ("body", "list[AST]")]).
  destruct main_loads as (e0 & Hload & HA & HB).
  eexists _, visit_Block. split; [exact Hload|].
  set (v := visitor_class (run main_args file_module visitor_names_init).1)
    in *.
  assert (Hv : v = ClassDef "ASTVisitor" [Name "ABC" (Some Load)] []
                     (visit_def
                        <$> set_iter (visitor_names_init
                                      ∪ list_to_set (visit_names main_args)))
                     []).
  { unfold v, visitor_class. rewrite run_eq. cbn [fst body].
    now rewrite last_snoc. }
  split; [cbn [dict_get]; now rewrite decide_True|].
  split.
  { cbn [abstract_names filter]. rewrite app_nil_r.
    unfold required_capabilities. fold v. rewrite Hv. reflexivity. }
  assert (Hget : ∀ k chain, k ≠ "ASTVisitor" → dict_get e0 k = Some chain →
            dict_get (("ASTVisitor", [v]) :: e0) k = Some chain).
  { intros k chain Hk Hc. cbn [dict_get]. now rewrite decide_False. }
  split.
  { unfold abstract_class. rewrite (Hget "AST" _ ltac:(discriminate) HA).
    reflexivity. }
  split.
  { unfold abstract_class. rewrite (Hget "Block" _ ltac:(discriminate) HB).
    reflexivity. }
  split; [exact Hvb|].
  intros b σ'. split.
  - unfold instantiate. rewrite (Hget "Block" _ ltac:(discriminate) HB).
    change (abstract_names _) with (@nil string).
    change (chain_method _ "__init__") with (Some (init_def fs)).
    unfold bind at 1, new_instance.
    assert (Hinit : def_shape (init_def fs) = true
                    ∧ def_rejected (init_def fs) = false)
      by (split; vm_compute; reflexivity).
    destruct Hinit as [Hshape Hrej]. unfold init_def in *.
    rewrite (call_function_bound getattr_ext "__init__" (init_arguments fs) _
               [] None [VRef (length (heap σ))]
               [("label", VNone); ("body", VList [])]
               [("self", VRef (length (heap σ))); ("label", VNone);
                ("body", VList [])]
               Hshape Hrej eq_refl).
    unfold bind.
    change (exec_block getattr_ext ?env _ ?s)
      with (exec_block getattr_ext env (def_body (init_def fs)) s).
    rewrite (exec_init_body getattr_ext _ (length (heap σ)) "Block" fs)
      with (d := []).
    + cbn [heap world]. unfold ret, σ', b. f_equal. f_equal.
      replace (length (heap σ)) with (length (heap σ) + 0) at 1 by lia.
      now rewrite insert_app_r.
    + reflexivity.
    + reflexivity.
    + repeat constructor; eexists; reflexivity.
    + cbn [heap]. now rewrite list_lookup_middle.
  - unfold call_method_in. rewrite (Hget "Block" _ ltac:(discriminate) HB).
    change (chain_method _ "accept") with (Some (accept_def "Block" false)).
    cbv beta iota.
    rewrite (accept_def_forwards getattr_ext "Block" false b (VExt h) [] [] σ')
      by first [apply NoDup_nil_2 | apply not_elem_of_nil].
    unfold call_attr, bind, getattr, call_value.
    change ("visit_" +:+ "Block") with "visit_Block".
    rewrite Hvb. unfold ret. now rewrite Hvb.
Qed.

End scenario.

Lemma main_scenario_witness :
  let V : nat → string → option (@callable unit) :=
    λ _ attr, Some (λ _ _, ret (VStr attr)) in
  let σ := {| heap := []; world := () |} in
  let m := (main file_module visitor_names_init).1 in
  (∀ c, c ∈ required_capabilities m → is_Some (V 0 c))
  ∧ class_name <$> node_definitions m
    = ["AST"; "Module"; "Block"; "If"; "While"; "Do"]
  ∧ required_capabilities m
    ≡ₚ ["visit_AST"; "visit_Module"; "visit_Block"; "visit_If";
        "visit_While"; "visit_Do"].
Proof.
  intros V σ m.
  assert (Himpl : ∀ c, c ∈ required_capabilities m → is_Some (V 0 c))
    by (intros c _; eexists; reflexivity).
  split; [exact Himpl|].
  destruct (main_scenario V 0 σ Himpl) as (Hnames & Hreq & _).
  split; [exact Hnames|exact Hreq].
Defined.

(** C8 as stated fails in its count: the six calls of [main] yield six
    node definitions, the root [AST] among them, not five. *)
Lemma main_six_definitions_counterexample :
  let m := (main file_module visitor_names_init).1 in
  class_name <$> node_definitions m
  = ["AST"; "Module"; "Block"; "If"; "While"; "Do"]
  ∧ length (node_definitions m) = 6
  ∧ length (node_definitions m) ≠ 5.
Proof.
  intros m. split; [reflexivity|]. split; [reflexivity|].
  vm_compute. discriminate.
Qed.

(** * Further properties of the generator *)

Section emitted_classes.

Context `{SetOrder}.

Lemma classes_run (l : list node_args) (m : Module_) (g : gset string) :
  classes (run l m g).1
  = classes m ++ (node_class <$> l)
    ++ [ClassDef "ASTVisitor" [Name "ABC" (Some Load)] []
          (visit_def <$> set_iter (g ∪ list_to_set (visit_names l))) []].
Proof.
  rewrite run_eq. unfold classes. cbn [fst body].
  rewrite !filter_app, classes_node_classes, filter_cons_True by exact I.
  rewrite filter_nil, <- app_assoc. reflexivity.
Qed.

Lemma class_names_node_classes (l : list node_args) :
  class_name <$> (node_class <$> l) = a_name <$> l.
Proof.
  induction l as [|a l IH]; [reflexivity|].
  rewrite !fmap_cons, IH. destruct (node_class_spec a) as (_ & -> & _).
  reflexivity.
Qed.

Lemma class_names_run (l : list node_args) (m : Module_) (g : gset string) :
  class_names (run l m g).1 = class_names m ++ (a_name <$> l) ++ ["ASTVisitor"].
Proof.
  unfold class_names. rewrite classes_run, !fmap_app.
  rewrite class_names_node_classes. reflexivity.
Qed.

(** X1.  A run emits its classes in the order of the calls, after whatever
    the module already held, and the visitor last. *)
Theorem classes_in_call_order (l : list node_args) (m : Module_)
    (g : gset string) :
  class_names (run l m g).1 = class_names m ++ (a_name <$> l) ++ ["ASTVisitor"]
  ∧ class_names (new_nodes l (m, g)).1 = class_names m ++ (a_name <$> l).
Proof.
  split.
  - apply class_names_run.
  - rewrite new_nodes_eq. unfold class_names, classes. cbn [fst body].
    rewrite filter_app, classes_node_classes, fmap_app.
    rewrite class_names_node_classes. reflexivity.
Qed.

Lemma node_class_body (a : node_args) :
  class_body (node_class a)
  = match ((λ '(f_name, f_type),
              AnnAssign (Name f_name (Some Store)) (Name f_type (Some Load))
                None 1) <$> default [] (a_fields a))
          ++ (if a_generate_init a
              then [init_def (default [] (a_fields a))] else [])
          ++ (if a_generate_visit a
              then [accept_def (a_name a) (a_abstract_visit a)] else [])
    with
    | [] => [Pass]
    | b => b
    end.
Proof.
  unfold node_class, new_node_with, new_node. cbn [fst snd body_append body].
  destruct (a_generate_init a), (a_generate_visit a);
    destruct (_ <$> default [] (a_fields a)) as [|s l];
    cbn [last app default class_body id]; rewrite ?app_nil_r, <- ?app_assoc;
    reflexivity.
Qed.

Lemma annotations_of_fields (fields : list (string * string))
    (rest : list stmt) :
  omap (λ s, match s with
             | AnnAssign (Name n _) (Name t _) None _ => Some (n, t)
             | _ => None
             end)
    (((λ '(f_name, f_type),
         AnnAssign (Name f_name (Some Store)) (Name f_type (Some Load))
           None 1) <$> fields) ++ rest)
  = fields
    ++ omap (λ s, match s with
                  | AnnAssign (Name n _) (Name t _) None _ => Some (n, t)
                  | _ => None
                  end) rest.
Proof.
  induction fields as [|[n t] fields IH]; [reflexivity|].
  rewrite fmap_cons. simpl. f_equal. exact IH.
Qed.

Lemma annotations_node_class (a : node_args) :
  annotations (node_class a) = default [] (a_fields a).
Proof.
  unfold annotations. rewrite node_class_body.
  destruct (default [] (a_fields a)) as [|f fs] eqn:Ef.
  - destruct (a_generate_init a), (a_generate_visit a); reflexivity.
  - rewrite <- Ef.
    assert (Hb : ∀ (anns rest : list stmt), anns ≠ [] →
              match anns ++ rest with [] => [Pass] | b => b end = anns ++ rest)
      by (intros [|??] ?; [contradiction|reflexivity]).
    rewrite Hb by (rewrite Ef; discriminate).
    rewrite annotations_of_fields.
    destruct (a_generate_init a), (a_generate_visit a); simpl;
      now rewrite app_nil_r.
Qed.

(** X2.  The class a call appends declares its fields first: one annotated
    name per field, in the order given and with the type text given,
    whatever the flags.  Its body is never empty: [pass] stands in exactly
    when there is no field, no constructor and no [accept]. *)
Theorem class_body_shape (m : Module_) (name : string)
    (fields : option (list (string * string))) (parent : string)
    (gi av gv : bool) (g : gset string) :
  ∃ c, body (new_node m name fields parent gi av gv g).1 = body m ++ [c]
       ∧ annotations c = default [] fields
       ∧ take (length (default [] fields)) (class_body c)
         = (λ '(f_name, f_type),
              AnnAssign (Name f_name (Some Store)) (Name f_type (Some Load))
                None 1) <$> default [] fields
       ∧ class_body c ≠ []
       ∧ (Pass ∈ class_body c
          ↔ default [] fields = [] ∧ gi = false ∧ gv = false).
Proof.
  rewrite new_node_class.
  exists (node_class (mk_node_args name fields parent gi av gv)).
  split; [reflexivity|].
  unfold annotations.
  rewrite (node_class_body (mk_node_args name fields parent gi av gv)).
  cbn [a_fields a_generate_init a_generate_visit a_name a_abstract_visit].
  set (anns := (λ '(f_name, f_type),
                  AnnAssign (Name f_name (Some Store))
                    (Name f_type (Some Load)) None 1) <$> default [] fields).
  assert (Hlen : length anns = length (default [] fields))
    by (unfold anns; apply length_fmap).
  assert (Hpass : ∀ rest, Pass ∈ anns ++ rest → Pass ∈ rest).
  { intros rest [Hin|Hin]%elem_of_app; [|exact Hin].
    unfold anns in Hin.
    apply list_elem_of_fmap in Hin as ([n t] & E & _). discriminate. }
  destruct (default [] fields) as [|f fs] eqn:Ef.
  - subst anns. cbn [fmap list_fmap app].
    destruct gi, gv; cbn [app]; (split; [reflexivity|]);
      (split; [reflexivity|]); (split; [discriminate|]);
      (split; [intros Hin|intros (_ & ? & ?); try discriminate; set_solver]);
      repeat (apply elem_of_cons in Hin as [Hin|Hin]; [discriminate|]);
      try (apply elem_of_nil in Hin; contradiction);
      auto.
  - assert (Hb : ∀ rest,
              match anns ++ rest with [] => [Pass] | b => b end = anns ++ rest)
      by (intros rest; unfold anns; reflexivity).
    rewrite Hb. split.
    + unfold anns. rewrite annotations_of_fields.
      destruct gi, gv; simpl; now rewrite app_nil_r.
    + split; [rewrite <- Hlen; now rewrite take_app_length|].
      split; [unfold anns; discriminate|].
      split; [|intros [? _]; discriminate].
      intros Hin%Hpass. exfalso.
      destruct gi, gv; simpl in Hin;
        repeat (apply elem_of_cons in Hin as [Hin|Hin]; [discriminate|]);
        apply elem_of_nil in Hin; contradiction.
Qed.

End emitted_classes.

Section flags.

Context `{SetOrder}.

(** X3.  [generate_init] decides about [__init__] and nothing else: with
    [False] the class has no [__init__], whatever its fields, while the
    field declarations, the [accept] method and [visitor_names] are the
    same for both values of the flag. *)
Theorem generate_init_only_controls_init (m : Module_) (name : string)
    (fields : option (list (string * string))) (parent : string)
    (av gv : bool) (g : gset string) :
  let off := new_node m name fields parent false av gv g in
  let on := new_node m name fields parent true av gv g in
  ∃ c_off c_on,
    body off.1 = body m ++ [c_off] ∧ body on.1 = body m ++ [c_on]
    ∧ find_method c_off "__init__" = None
    ∧ ("__init__" ∉ method_names c_off)
    ∧ find_method c_on "__init__" = Some (init_def (default [] fields))
    ∧ find_method c_off "accept" = find_method c_on "accept"
    ∧ annotations c_off = annotations c_on
    ∧ off.2 = on.2.
Proof.
  intros off on. subst off on. rewrite !new_node_class.
  destruct (node_class_spec (mk_node_args name fields parent false av gv))
    as (_ & _ & _ & Ha0 & Hi0 & Hm0).
  destruct (node_class_spec (mk_node_args name fields parent true av gv))
    as (_ & _ & _ & Ha1 & Hi1 & _).
  pose proof (annotations_node_class
                (mk_node_args name fields parent false av gv)) as Hann0.
  pose proof (annotations_node_class
                (mk_node_args name fields parent true av gv)) as Hann1.
  cbn [a_fields] in Hann0, Hann1.
  eexists _, _. split; [reflexivity|]. split; [reflexivity|].
  split; [exact Hi0|]. split.
  - rewrite Hm0. cbn [a_generate_init a_generate_visit app].
    destruct gv; set_solver.
  - split; [exact Hi1|]. split; [now rewrite Ha0, Ha1|].
    split; [now rewrite Hann0, Hann1|reflexivity].
Qed.

(** X4.  Leaving [fields] out is the same as passing the empty list.  A
    constructor generated for a class without fields takes [self] alone
    and has an empty body: there is no [pass] in it, although the class
    body itself falls back on [pass]. *)
Theorem no_fields_constructor (m : Module_) (name : string) (parent : string)
    (gi av gv : bool) (g : gset string) :
  new_node m name None parent gi av gv g
  = new_node m name (Some []) parent gi av gv g
  ∧ ∃ c, body (new_node m name None parent true av gv g).1 = body m ++ [c]
         ∧ ∃ init, find_method c "__init__" = Some init
                   ∧ parameters <$> def_arguments init = Some ["self"]
                   ∧ def_body init = []
                   ∧ (Pass ∉ class_body c).
Proof.
  split; [reflexivity|]. rewrite new_node_class.
  destruct (node_class_spec (mk_node_args name None parent true av gv))
    as (_ & _ & _ & _ & Hi & _).
  eexists. split; [reflexivity|]. eexists. split; [exact Hi|].
  split; [reflexivity|]. split; [reflexivity|].
  rewrite node_class_body.
  cbn [a_fields a_generate_init a_generate_visit default fmap list_fmap app].
  destruct gv; intros Hin;
    repeat (apply elem_of_cons in Hin as [Hin|Hin]; [discriminate|]);
    apply elem_of_nil in Hin; contradiction.
Qed.

Lemma visitor_class_generate_visitor (m : Module_) (g : gset string) :
  visitor_class (generate_visitor m g).1
  = ClassDef "ASTVisitor" [Name "ABC" (Some Load)] []
      (visit_def <$> set_iter g) [].
Proof.
  unfold visitor_class, generate_visitor, body_append. cbn [fst body].
  now rewrite last_snoc.
Qed.

(** X5.  The visitor class has one method per name in [visitor_names] and
    nothing else in its body; every method is decorated [abstractmethod],
    takes [(self, node, *args, **kwargs)] and consists of [pass].  For the
    empty set the class body is empty: [generate_visitor] has no [pass]
    fallback of the kind [new_node] has. *)
Theorem visitor_methods_shape (m : Module_) (g : gset string) :
  let v := visitor_class (generate_visitor m g).1 in
  class_name v = "ASTVisitor"
  ∧ class_bases v = [Name "ABC" (Some Load)]
  ∧ class_body v ≡ₚ visit_def <$> elements g
  ∧ length (class_body v) = size g
  ∧ Forall (λ s, def_body s = [Pass]
                 ∧ def_decorators s = [Name "abstractmethod" (Some Load)]
                 ∧ parameters <$> def_arguments s
                   = Some ["self"; "node"; "args"; "kwargs"])
      (class_body v)
  ∧ (g = ∅ → class_body v = []).
Proof.
  intros v. subst v. rewrite visitor_class_generate_visitor.
  cbn [class_name class_bases class_body].
  split; [reflexivity|]. split; [reflexivity|].
  split; [now rewrite set_iter_perm|].
  split; [rewrite length_fmap, set_iter_perm; reflexivity|].
  split.
  - apply Forall_fmap, Forall_forall. intros k _. simpl. auto.
  - intros ->. pose proof (set_iter_perm ∅) as Hp.
    rewrite elements_empty in Hp. apply Permutation_nil_r in Hp.
    now rewrite Hp.
Qed.

End flags.

(** X6.  Which methods the visitor requires depends only on the set of
    names passed with [generate_visit=True]: the order of the calls, a
    repeated name, the module and the iteration order of the set do not
    matter. *)
Theorem visitor_independent_of_call_order (O1 O2 : SetOrder)
    (l l' : list node_args) (m m' : Module_) (g : gset string) :
  (∀ k, k ∈ visit_names l ↔ k ∈ visit_names l') →
  capabilities (@run O1 l m g).1 ≡ₚ capabilities (@run O2 l' m' g).1.
Proof.
  intros Hsame. rewrite !capabilities_run.
  rewrite (@set_iter_perm O1), (@set_iter_perm O2).
  replace (g ∪ list_to_set (visit_names l'))
    with (g ∪ list_to_set (visit_names l) : gset string); [reflexivity|].
  apply set_eq. intros k. rewrite !elem_of_union, !elem_of_list_to_set.
  now rewrite Hsame.
Qed.

Lemma visitor_independent_of_call_order_witness :
  let a := mk_node_args "If" None "AST" true false true in
  let b := mk_node_args "Do" None "AST" true false true in
  (∀ k, k ∈ visit_names [a; b] ↔ k ∈ visit_names [b; a; b])
  ∧ capabilities (run [a; b] file_module visitor_names_init).1
    ≡ₚ capabilities (run [b; a; b] file_module visitor_names_init).1.
Proof.
  intros a b.
  assert (Hsame : ∀ k, k ∈ visit_names [a; b] ↔ k ∈ visit_names [b; a; b]).
  { intros k. change (visit_names [a; b]) with ["If"; "Do"].
    change (visit_names [b; a; b]) with ["Do"; "If"; "Do"].
    rewrite !elem_of_cons, !elem_of_nil. tauto. }
  split; [exact Hsame|].
  exact (visitor_independent_of_call_order elements_order elements_order
           [a; b] [b; a; b] file_module file_module visitor_names_init Hsame).
Defined.

Section rerun.

Context `{SetOrder}.

(** X7.  Running the same calls a second time in the same process is not
    idempotent on the module: every class, the visitor included, is
    appended once more.  It is idempotent on [visitor_names], so the second
    visitor requires the same methods as the first. *)
Theorem rerun_appends_again (l : list node_args) (m : Module_)
    (g : gset string) :
  let r1 := run l m g in
  let r2 := run l r1.1 r1.2 in
  r2.2 = r1.2
  ∧ class_names r2.1
    = class_names m ++ ((a_name <$> l) ++ ["ASTVisitor"])
      ++ ((a_name <$> l) ++ ["ASTVisitor"])
  ∧ length (body r2.1) = length (body m) + 2 * S (length l)
  ∧ capabilities r2.1 = capabilities r1.1.
Proof.
  intros r1 r2. subst r1 r2.
  assert (Hset : (run l m g).2 ∪ list_to_set (visit_names l) = (run l m g).2).
  { rewrite run_eq. cbn [snd]. set_solver. }
  split; [rewrite (run_eq l (run l m g).1); cbn [snd]; exact Hset|].
  split.
  - rewrite !class_names_run, <- !app_assoc. reflexivity.
  - split.
    + rewrite (run_eq l (run l m g).1), run_eq. cbn [fst snd body].
      rewrite !length_app, !length_fmap. simpl. lia.
    + rewrite !capabilities_run, Hset. rewrite run_eq. reflexivity.
Qed.

End rerun.

(** * Further properties of the generated code *)

Section generated_calls.

Context `{SetOrder}.
Context {W : Type} (getattr_ext : nat → string → option (@callable W)).

(** Binding for any signature [(n1, n2, *nv, **nk)]. *)
Lemma bind_star_arguments (n1 n2 nv nk : string)
    (t1 t2 tv tk : option expr) (x1 x2 : value) (pos : list value)
    (kw : list (string * value)) :
  n1 ∉ kw.*1 → n2 ∉ kw.*1 →
  bind_arguments
    {| posonlyargs := []; args := [mk_arg n1 t1; mk_arg n2 t2];
       vararg := Some (mk_arg nv tv); kwonlyargs := []; kw_defaults := [];
       kwarg := Some (mk_arg nk tk); defaults := [] |}
    (x1 :: x2 :: pos) kw
  = Returned [(n1, x1); (n2, x2); (nv, VTuple pos); (nk, VDict kw)].
Proof.
  intros H1 H2.
  destruct (filter_keywords_none [n1; n2] kw) as [Hnamed Hother].
  { repeat constructor; assumption. }
  unfold bind_arguments.
  cbn [posonlyargs args kwonlyargs defaults kw_defaults vararg kwarg app
       fmap list_fmap arg_name omap list_omap].
  rewrite Hnamed, Hother.
  case_bool_decide as C1; [destruct C1; discriminate|].
  case_bool_decide as C2; [destruct C2; discriminate|].
  case_bool_decide as C3; [inversion C3|].
  case_bool_decide as C4; [reflexivity|]. exfalso. apply C4.
  simpl. repeat constructor; set_solver.
Qed.

(** X8.  Every method of the generated visitor, called as it stands (say
    through [super()]), returns [None] and changes nothing, whatever the
    node and the further arguments. *)
Theorem visit_method_does_nothing (m : Module_) (g : gset string)
    (k : string) (self node : value) (pos : list value)
    (kw : list (string * value)) (σ : @state W) :
  k ∈ g → "self" ∉ kw.*1 → "node" ∉ kw.*1 →
  visit_def k ∈ class_body (visitor_class (generate_visitor m g).1)
  ∧ call_function getattr_ext (visit_def k) (self :: node :: pos) kw σ
    = (Returned VNone, σ).
Proof.
  intros Hk Hs Hn. split.
  - rewrite visitor_class_generate_visitor. cbn [class_body].
    apply list_elem_of_fmap. exists k. split; [reflexivity|].
    now apply elem_of_set_iter.
  - destruct (visit_def_compiles k) as [Hshape Hrej]. unfold visit_def in *.
    erewrite call_function_bound;
      [reflexivity|exact Hshape|exact Hrej|now apply bind_star_arguments].
Qed.

(** X9.  Calling [accept] without a visitor is a [TypeError]; nothing is
    looked up or called. *)
Theorem accept_without_visitor (name : string) (av : bool) (node : value)
    (kw : list (string * value)) (σ : @state W) :
  "self" ∉ kw.*1 → "visitor" ∉ kw.*1 →
  call_function getattr_ext (accept_def name av) [node] kw σ
  = (Raised TypeError, σ).
Proof.
  intros Hs Hv.
  destruct (filter_keywords_none ["self"; "visitor"] kw) as [Hnamed Hother].
  { repeat constructor; assumption. }
  assert (Hb : bind_arguments accept_arguments [node] kw = Raised TypeError).
  { unfold bind_arguments.
    cbn [accept_arguments posonlyargs args kwonlyargs defaults kw_defaults
         vararg kwarg app fmap list_fmap arg_name omap list_omap].
    rewrite Hnamed, Hother.
    case_bool_decide as C1; [reflexivity|].
    case_bool_decide as C2; [reflexivity|].
    case_bool_decide as C3; [reflexivity|].
    case_bool_decide as C4; [|reflexivity]. exfalso.
    simpl in C4. apply Forall_cons in C4 as [_ C4].
    apply Forall_cons in C4 as [C4 _].
    apply list_elem_of_singleton in C4. discriminate. }
  destruct (accept_def_compiles name av) as [Hshape Hrej].
  unfold call_function, accept_def in *. now rewrite Hshape, Hrej, Hb.
Qed.

(** X10.  In a module that Python imports, when the visitor passed to a
    generated [accept] has no [visit_<name>] method, or is [None],
    [accept] raises [AttributeError] and the state is as it was. *)
Theorem accept_without_method (m : Module_) (name : string)
    (fields : option (list (string * string))) (parent : string)
    (gi av : bool) (g : gset string) (e : class_env) (node V : value)
    (pos : list value) (kw : list (string * value)) (σ : @state W) :
  load_module (new_node m name fields parent gi av true g).1 = Returned e →
  NoDup kw.*1 → "self" ∉ kw.*1 → "visitor" ∉ kw.*1 →
  V = VNone ∨ (∃ h, V = VExt h ∧ getattr_ext h ("visit_" +:+ name) = None) →
  call_method_in getattr_ext e name "accept" node (V :: pos) kw σ
  = (Raised AttributeError, σ).
Proof.
  intros Hl Hnd Hs Hv HV.
  destruct (load_new_node m name fields parent gi av true g e Hl)
    as (e0 & chain & _ & _ & Hget & _).
  destruct (node_class_spec (mk_node_args name fields parent gi av true))
    as (_ & _ & _ & Ha & _).
  unfold call_method_in.
  rewrite Hget, (chain_method_own _ _ chain _ Ha).
  cbn [a_generate_visit a_name a_abstract_visit].
  rewrite (accept_def_forwards getattr_ext name av node V pos kw σ Hnd Hs Hv).
  unfold call_attr, bind, getattr.
  destruct HV as [->|(h & -> & Hnone)]; [reflexivity|].
  now rewrite Hnone.
Qed.

(** X11.  The visitor may be passed by keyword: [accept(visitor=V, ...)]
    forwards like [accept(V, ...)], and the keyword [visitor] itself is not
    passed on. *)
Theorem accept_visitor_by_keyword (name : string) (av : bool)
    (node V : value) (kw : list (string * value)) (σ : @state W) :
  NoDup kw.*1 → "self" ∉ kw.*1 → "visitor" ∉ kw.*1 →
  call_function getattr_ext (accept_def name av) [node]
    (("visitor", V) :: kw) σ
  = call_attr getattr_ext V ("visit_" +:+ name) [node] kw σ.
Proof.
  intros Hnd Hs Hv.
  rewrite <- (accept_def_forwards getattr_ext name av node V [] kw σ Hnd Hs Hv).
  destruct (filter_keywords_none ["self"; "visitor"] kw) as [Hnamed Hother].
  { repeat constructor; assumption. }
  assert (Hb : bind_arguments accept_arguments [node] (("visitor", V) :: kw)
               = bind_arguments accept_arguments [node; V] kw).
  { rewrite bind_accept_arguments by assumption.
    unfold bind_arguments.
    cbn [accept_arguments posonlyargs args kwonlyargs defaults kw_defaults
         vararg kwarg app fmap list_fmap arg_name omap list_omap].
    rewrite (filter_cons_True (λ kv : string * value, kv.1 ∈ _))
      by (simpl; set_solver).
    rewrite (filter_cons_False (λ kv : string * value, kv.1 ∉ _))
      by (simpl; set_solver).
    rewrite Hnamed, Hother.
    case_bool_decide as C1; [destruct C1; discriminate|].
    case_bool_decide as C2; [destruct C2; discriminate|].
    case_bool_decide as C3.
    { exfalso. apply Exists_cons in C3 as [C3|C3]; [|inversion C3].
      simpl in C3. apply list_elem_of_singleton in C3. discriminate. }
    case_bool_decide as C4; [reflexivity|]. exfalso. apply C4.
    simpl. repeat constructor; set_solver. }
  unfold call_function, accept_def. now rewrite Hb.
Qed.

End generated_calls.

Section constructor_calls.

Context {W : Type} (getattr_ext : nat → string → option (@callable W)).

Lemma filter_keywords_all (names : list string) (kw : list (string * value)) :
  Forall (λ kv : string * value, kv.1 ∈ names) kw →
  filter (λ kv : string * value, kv.1 ∈ names) kw = kw
  ∧ filter (λ kv : string * value, kv.1 ∉ names) kw = [].
Proof.
  induction 1 as [|kv kw Hkv _ [IH1 IH2]]; [split; reflexivity|]. split.
  - rewrite filter_cons_True by exact Hkv. now rewrite IH1.
  - rewrite filter_cons_False by (intros Hn; now apply Hn). exact IH2.
Qed.

Lemma dict_get_elem_of {A} (d : list (string * A)) (k : string) (v : A) :
  NoDup d.*1 → (k, v) ∈ d → dict_get d k = Some v.
Proof.
  induction d as [|[k' v'] d IH]; intros Hnd Hin; [inversion Hin|].
  simpl in Hnd. apply NoDup_cons in Hnd as [Hnot Hnd]. simpl.
  apply elem_of_cons in Hin as [E|Hin].
  - injection E as <- <-. now rewrite decide_True.
  - rewrite decide_False; [now apply IH|].
    intros ->. apply Hnot. apply list_elem_of_fmap. now exists (k, v).
Qed.

Lemma dict_get_dict_set {A} (d : list (string * A)) (k k' : string) (v : A) :
  dict_get (dict_set d k v) k'
  = if decide (k = k') then Some v else dict_get d k'.
Proof.
  induction d as [|[k0 v0] d IH]; cbn [dict_set dict_get].
  - reflexivity.
  - destruct (decide (k0 = k)) as [->|Hne]; cbn [dict_get].
    + repeat case_decide; subst; congruence.
    + rewrite IH. repeat case_decide; subst; congruence.
Qed.

Lemma dict_get_foldl_set (f : string → value) (names : list string)
    (d : list (string * value)) (k : string) :
  dict_get (foldl (λ d n, dict_set d n (f n)) d names) k
  = if decide (k ∈ names) then Some (f k) else dict_get d k.
Proof.
  revert d. induction names as [|n names IH]; intros d; cbn [foldl].
  - case_decide as C; [inversion C|reflexivity].
  - rewrite IH, dict_get_dict_set.
    repeat case_decide; subst; try reflexivity; exfalso; set_solver.
Qed.

(** The fields may be passed by keyword, in any order. *)
Lemma bind_init_keywords (fields : list (string * string)) (self : value)
    (vs : list value) (kw : list (string * value)) :
  NoDup ("self" :: fields.*1) →
  length vs = length fields →
  kw ≡ₚ zip fields.*1 vs →
  bind_arguments (init_arguments fields) [self] kw
  = Returned (("self", self) :: kw).
Proof.
  intros Hnd Hlen Hkw.
  assert (Hkeys : kw.*1 ≡ₚ fields.*1).
  { rewrite Hkw. now rewrite fst_zip by (rewrite length_fmap; lia). }
  destruct (filter_keywords_all ("self" :: fields.*1) kw) as [Hnamed Hother].
  { apply Forall_forall. intros [k v] Hin. simpl. right.
    rewrite <- Hkeys. apply list_elem_of_fmap. now exists (k, v). }
  unfold bind_arguments, init_arguments.
  cbn [posonlyargs args kwonlyargs defaults kw_defaults vararg kwarg omap
       list_omap option_list].
  assert (E : arg_name <$> ([mk_arg "self" None]
                ++ ((λ '(f_name, f_type),
                       mk_arg f_name (Some (Name f_type (Some Load))))
                      <$> fields))
              = "self" :: fields.*1)
    by (cbn [app fmap list_fmap arg_name]; f_equal; apply init_arg_names).
  rewrite !app_nil_r, !app_nil_l, !E. cbn [fmap list_fmap app].
  rewrite ?app_nil_r, Hnamed, Hother.
  assert (Hz : zip ("self" :: fields.*1) [self] = [("self", self)])
    by (simpl; destruct (fields.*1); reflexivity).
  rewrite Hz.
  case_bool_decide as C1.
  { destruct C1 as [_ C1]. exfalso. apply C1. simpl.
    destruct (fields.*1); reflexivity. }
  case_bool_decide as C2; [destruct C2 as [_ C2]; now destruct C2|].
  case_bool_decide as C3.
  { exfalso. apply Exists_exists in C3 as ([k v] & Hin & Hk).
    simpl in Hk. apply list_elem_of_singleton in Hk as ->.
    apply NoDup_cons in Hnd as [Hnot _]. apply Hnot.
    rewrite <- Hkeys. apply list_elem_of_fmap. now exists ("self", v). }
  case_bool_decide as C4; [reflexivity|]. exfalso. apply C4.
  apply Forall_forall. intros p Hp. rewrite fmap_app, Hkeys. exact Hp.
Qed.

(** X12.  A generated constructor that the compiler takes (at least one
    field, no field name twice or [self], plain names and type texts)
    takes its fields by keyword as well as by position, in any order,
    with the same effect: the attributes are set in declaration order
    either way. *)
Theorem constructor_by_keyword (fields : list (string * string))
    (vs : list value) (kw : list (string * value)) (l : nat)
    (cname : string) (σ : @state W) :
  fields ≠ [] → NoDup ("self" :: fields.*1) → fields_ok fields = true →
  length vs = length fields →
  kw ≡ₚ zip fields.*1 vs →
  heap σ !! l = Some {| obj_class := cname; obj_dict := [] |} →
  call_function getattr_ext (init_def fields) [VRef l] kw σ
  = call_function getattr_ext (init_def fields) (VRef l :: vs) [] σ
  ∧ call_function getattr_ext (init_def fields) [VRef l] kw σ
    = (Returned VNone,
       {| heap := <[l := {| obj_class := cname;
                            obj_dict := zip fields.*1 vs |}]> (heap σ);
          world := world σ |}).
Proof.
  intros Hne Hnd Hok Hlen Hkw Hl.
  rewrite (init_def_runs getattr_ext fields vs l cname σ Hne Hnd Hok Hlen Hl).
  assert (Hgoal : call_function getattr_ext (init_def fields) [VRef l] kw σ
          = (Returned VNone,
             {| heap := <[l := {| obj_class := cname;
                                  obj_dict := zip fields.*1 vs |}]> (heap σ);
                world := world σ |})); [|now split].
  pose proof (NoDup_cons_1_1 _ _ Hnd) as Hself.
  pose proof (NoDup_cons_1_2 _ _ Hnd) as Hnames.
  assert (Hkeys : NoDup kw.*1).
  { rewrite Hkw, fst_zip by (rewrite length_fmap; lia). exact Hnames. }
  assert (Henv : ∀ i n v, fields.*1 !! i = Some n → vs !! i = Some v →
                 dict_get (("self", VRef l) :: kw) n = Some v).
  { intros i n v Hn Hv. cbn [dict_get]. rewrite decide_False.
    - apply dict_get_elem_of; [exact Hkeys|]. rewrite Hkw.
      apply list_elem_of_lookup. exists i.
      apply lookup_zip_with_Some. eauto.
    - intros <-. apply Hself. eapply list_elem_of_lookup_2. exact Hn. }
  assert (Hs : dict_get (("self", VRef l) :: kw) "self" = Some (VRef l))
    by (cbn [dict_get]; now rewrite decide_True).
  destruct (proj2 (init_def_compiles fields)) as [Hshape Hrej]; [auto|].
  unfold init_def in *.
  erewrite call_function_bound;
    [|exact Hshape|exact Hrej
     |exact (bind_init_keywords fields (VRef l) vs kw Hnd Hlen Hkw)].
  unfold bind.
  change (exec_block getattr_ext (("self", VRef l) :: kw) _ σ)
    with (exec_block getattr_ext (("self", VRef l) :: kw)
            (def_body (init_def fields)) σ).
  rewrite (exec_init_body getattr_ext _ l cname fields Hs Hok) with (d := []);
    [| |exact Hl].
  - unfold ret. cbn [default].
    rewrite (foldl_dict_set_zip fields.*1 vs _ [] Hnames); auto.
    + now rewrite length_fmap.
    + intros n _. simpl. set_solver.
  - apply Forall_forall. intros n Hin.
    apply list_elem_of_lookup_1 in Hin as [i Hn].
    assert (Hi : i < length vs).
    { apply lookup_lt_Some in Hn. rewrite length_fmap in Hn. lia. }
    apply lookup_lt_is_Some_2 in Hi as [v Hv].
    exists v. eapply Henv; eassumption.
Qed.

(** X13.  Run on an instance that already has attributes, a generated
    constructor that the compiler takes overwrites the declared fields
    and keeps every other attribute, the class of the instance, every
    other object and the outside state.  (Field names are plain: a name
    such as [__class__] or [__dict__], which the instance does not store
    as an attribute, is not among them.) *)
Theorem constructor_frame (fields : list (string * string))
    (vs : list value) (l : nat) (o : object) (σ : @state W) :
  fields ≠ [] → NoDup ("self" :: fields.*1) → fields_ok fields = true →
  length vs = length fields →
  heap σ !! l = Some o →
  ∃ d,
    call_function getattr_ext (init_def fields) (VRef l :: vs) [] σ
    = (Returned VNone,
       {| heap := <[l := {| obj_class := obj_class o; obj_dict := d |}]>
                    (heap σ);
          world := world σ |})
    ∧ (∀ i n v, fields.*1 !! i = Some n → vs !! i = Some v →
         dict_get d n = Some v)
    ∧ (∀ k, k ∉ fields.*1 → dict_get d k = dict_get (obj_dict o) k)
    ∧ (∀ l' o', l' ≠ l → heap σ !! l' = Some o' →
         <[l := {| obj_class := obj_class o; obj_dict := d |}]> (heap σ) !! l'
         = Some o').
Proof.
  intros Hne Hnd Hok Hlen Hl.
  pose proof (NoDup_cons_1_1 _ _ Hnd) as Hself.
  pose proof (NoDup_cons_1_2 _ _ Hnd) as Hnames.
  set (env := ("self", VRef l) :: zip fields.*1 vs).
  assert (Henv : ∀ i n v, fields.*1 !! i = Some n → vs !! i = Some v →
                 dict_get env n = Some v).
  { intros i n v Hn Hv. unfold env. cbn [dict_get]. rewrite decide_False.
    - eapply dict_get_zip; eassumption.
    - intros <-. apply Hself. eapply list_elem_of_lookup_2. exact Hn. }
  assert (Hs : dict_get env "self" = Some (VRef l))
    by (unfold env; cbn [dict_get]; now rewrite decide_True).
  exists (foldl (λ d n, dict_set d n (default VNone (dict_get env n)))
            (obj_dict o) fields.*1).
  split; [|split; [|split]].
  - destruct (proj2 (init_def_compiles fields)) as [Hshape Hrej]; [auto|].
    unfold init_def in *.
    erewrite call_function_bound;
      [|exact Hshape|exact Hrej
       |exact (bind_init_arguments fields (VRef l) vs Hlen)].
    unfold bind. fold env.
    change (exec_block getattr_ext env _ σ)
      with (exec_block getattr_ext env (def_body (init_def fields)) σ).
    rewrite (exec_init_body getattr_ext env l (obj_class o) fields Hs Hok)
      with (d := obj_dict o); [reflexivity| |destruct o; exact Hl].
    apply Forall_forall. intros n Hin.
    apply list_elem_of_lookup_1 in Hin as [i Hn].
    assert (Hi : i < length vs).
    { apply lookup_lt_Some in Hn. rewrite length_fmap in Hn. lia. }
    apply lookup_lt_is_Some_2 in Hi as [v Hv].
    exists v. eapply Henv; eassumption.
  - intros i n v Hn Hv.
    rewrite (dict_get_foldl_set (λ n, default VNone (dict_get env n))).
    rewrite decide_True by (eapply list_elem_of_lookup_2; exact Hn).
    now rewrite (Henv i n v Hn Hv).
  - intros k Hk.
    rewrite (dict_get_foldl_set (λ n, default VNone (dict_get env n))).
    now rewrite decide_False.
  - intros l' o' Hne' Hl'. now rewrite list_lookup_insert_ne.
Qed.

End constructor_calls.

(** * The checked-in AST.py *)

Section contexts.

Context {W : Type} (getattr_ext : nat → string → option (@callable W)).

Lemma explicit_keywords_strip (kws : list (option string * expr)) :
  explicit_keywords (List.map (λ kv, (kv.1, strip_expr kv.2)) kws)
  = explicit_keywords kws.
Proof.
  unfold explicit_keywords.
  induction kws as [|[[k|] e] kws IH]; simpl; [reflexivity| |exact IH].
  f_equal. exact IH.
Qed.

(** Evaluation does not look at expression contexts. *)
Lemma eval_expr_strip (env : list (string * value)) :
  ∀ e, eval_expr getattr_ext env (strip_expr e) = eval_expr getattr_ext env e.
Proof.
  fix IH 1. intros [id c|v attr c|v c|f args kws].
  - reflexivity.
  - cbn [strip_expr eval_expr]. now rewrite IH.
  - reflexivity.
  - cbn [strip_expr]. cbn [eval_expr]. rewrite explicit_keywords_strip, IH.
    match goal with
    | |- context [bind (?F (List.map strip_expr args)) _] => set (ea := F)
    end.
    match goal with
    | |- context [bind (?F (List.map _ kws)) _] => set (ek := F)
    end.
    assert (Ha : ea (List.map strip_expr args) = ea args).
    { clear -IH. induction args as [|a args IHa]; [reflexivity|].
      pose proof (IH a) as Hfull.
      destruct a as [id c|v attr c|v c|f' args' kws'];
        cbn [List.map]; cbn [ea]; fold ea;
        rewrite ?IHa; try reflexivity.
      - now rewrite Hfull.
      - cbn [strip_expr]. now rewrite (IH v).
      - now rewrite Hfull. }
    assert (Hk : ek (List.map (λ kv, (kv.1, strip_expr kv.2)) kws) = ek kws).
    { clear -IH. induction kws as [|[[k|] e] kws IHk]; [reflexivity| |];
        cbn [List.map fst snd]; cbn [ek]; fold ek; now rewrite IHk, IH. }
    now rewrite Ha, Hk.
Qed.

Lemma exec_stmt_strip (env : list (string * value)) (s : stmt) :
  exec_stmt getattr_ext env (strip_stmt s) = exec_stmt getattr_ext env s.
Proof.
  destruct s as [| | | |targets e|[e|]|]; try reflexivity.
  - destruct targets as [|[| obj attr c| |] [|t targets]]; try reflexivity.
    cbn [strip_stmt List.map strip_expr exec_stmt].
    now rewrite !eval_expr_strip.
  - cbn [strip_stmt option_map exec_stmt]. now rewrite eval_expr_strip.
Qed.

Lemma exec_block_strip (env : list (string * value)) (l : list stmt) :
  exec_block getattr_ext env (List.map strip_stmt l)
  = exec_block getattr_ext env l.
Proof.
  induction l as [|s l IH]; [reflexivity|].
  cbn [List.map exec_block]. now rewrite exec_stmt_strip, IH.
Qed.

Lemma arg_names_strip (l : list arg) :
  arg_name <$> List.map strip_arg l = arg_name <$> l.
Proof.
  induction l as [|[n t] l IH]; [reflexivity|].
  cbn [List.map fmap list_fmap]. cbn [fmap] in IH. now rewrite IH.
Qed.

Lemma bind_arguments_strip (a : arguments) (pos : list value)
    (kw : list (string * value)) :
  bind_arguments (strip_arguments a) pos kw = bind_arguments a pos kw
  ∧ parameters (strip_arguments a) = parameters a.
Proof.
  destruct a as [po ar va ko kd kwa de].
  assert (Hopt : ∀ o : option arg,
            arg_name <$> option_list (option_map strip_arg o)
            = arg_name <$> option_list o)
    by (intros [[??]|]; reflexivity).
  split.
  - unfold bind_arguments, strip_arguments.
    cbn [posonlyargs args vararg kwonlyargs kw_defaults kwarg defaults].
    rewrite !fmap_app, !arg_names_strip, <- !fmap_app.
    assert (Hde : match List.map strip_expr de with [] => true | _ => false end
                  = match de with [] => true | _ => false end)
      by (destruct de; reflexivity).
    assert (Hkd : match omap id (List.map (option_map strip_expr) kd) with
                  | [] => true | _ => false end
                  = match omap id kd with [] => true | _ => false end).
    { induction kd as [|[e|] kd IH]; [reflexivity|reflexivity|exact IH]. }
    destruct de as [|d de]; [|reflexivity]. cbn [List.map].
    destruct (omap id (List.map (option_map strip_expr) kd));
      destruct (omap id kd); try discriminate; [|reflexivity].
    destruct va as [[vn vt]|], kwa as [[kn kt]|]; reflexivity.
  - unfold parameters, strip_arguments.
    cbn [posonlyargs args vararg kwonlyargs kw_defaults kwarg defaults].
    rewrite !fmap_app, !arg_names_strip, !Hopt. reflexivity.
Qed.

Lemma annotation_ok_strip (t : option expr) :
  annotation_ok (option_map strip_expr t) = annotation_ok t.
Proof. destruct t as [[| | |]|]; reflexivity. Qed.

Lemma arg_ok_strip (l : list arg) :
  forallb arg_ok (List.map strip_arg l) = forallb arg_ok l.
Proof.
  induction l as [|[n t] l IH]; [reflexivity|].
  cbn [List.map forallb strip_arg arg_ok]. now rewrite annotation_ok_strip, IH.
Qed.

Lemma signature_ok_strip (a : arguments) :
  signature_ok (strip_arguments a) = signature_ok a.
Proof.
  destruct a as [po ar va ko kd kwa de].
  unfold signature_ok, strip_arguments.
  cbn [posonlyargs args vararg kwonlyargs kw_defaults kwarg].
  assert (Hopt : ∀ o : option arg,
            forallb arg_ok (option_list (option_map strip_arg o))
            = forallb arg_ok (option_list o)).
  { intros [[n [[| | |]|]]|]; reflexivity. }
  rewrite !forallb_app, !arg_ok_strip, !Hopt, !length_map. reflexivity.
Qed.

(** Whether the compiler takes a definition does not depend on contexts. *)
Lemma def_compiles_strip (fd : stmt) :
  def_shape (strip_stmt fd) = def_shape fd
  ∧ def_rejected (strip_stmt fd) = def_rejected fd.
Proof.
  destruct fd as [| |name a body decos returns| | | |]; try (split; reflexivity).
  cbn [strip_stmt def_shape def_rejected].
  rewrite signature_ok_strip, annotation_ok_strip.
  destruct (bind_arguments_strip a [] []) as [_ ->]. split.
  - destruct decos as [|[id c|?|?|?] [|d decos]]; reflexivity.
  - destruct body; reflexivity.
Qed.

Lemma call_function_strip (fd : stmt) (pos : list value)
    (kw : list (string * value)) :
  call_function getattr_ext (strip_stmt fd) pos kw
  = call_function getattr_ext fd pos kw.
Proof.
  destruct (def_compiles_strip fd) as [Hshape Hrej].
  destruct fd as [| |name a body decos returns| | | |]; try reflexivity.
  unfold call_function. rewrite Hshape, Hrej. cbn [strip_stmt].
  destruct (bind_arguments_strip a pos kw) as [-> _].
  destruct (bind_arguments a pos kw) as [env|e|];
    now rewrite ?exec_block_strip.
Qed.

Lemma find_method_strip (c : stmt) (mname : string) :
  find_method (strip_stmt c) mname = strip_stmt <$> find_method c mname.
Proof.
  unfold find_method.
  assert (Hb : class_body (strip_stmt c) = List.map strip_stmt (class_body c))
    by (destruct c; reflexivity).
  rewrite Hb. generalize (class_body c). intros l.
  assert (Hf : filter (λ s, is_def mname s) (List.map strip_stmt l)
               = List.map strip_stmt (filter (λ s, is_def mname s) l)).
  { induction l as [|s l IH]; [reflexivity|]. cbn [List.map].
    assert (Hs : is_def mname (strip_stmt s) = is_def mname s)
      by (destruct s; reflexivity).
    rewrite !filter_cons, Hs.
    destruct (decide (is_def mname s)); cbn [List.map]; now rewrite IH. }
  rewrite Hf. generalize (filter (λ s, is_def mname s) l). intros l'.
  induction l' as [|s [|s' l'] IH]; [reflexivity|reflexivity|exact IH].
Qed.

(** Classes that the compiler takes and that agree up to expression
    contexts behave alike. *)
Lemma call_method_strip (c c' : stmt) (mname : string) (self : value)
    (pos : list value) (kw : list (string * value)) :
  class_ok c = true → class_ok c' = true →
  strip_stmt c = strip_stmt c' →
  call_method getattr_ext c mname self pos kw
  = call_method getattr_ext c' mname self pos kw.
Proof.
  intros Hok Hok' E. unfold call_method. rewrite Hok, Hok'.
  pose proof (find_method_strip c mname) as H1.
  pose proof (find_method_strip c' mname) as H2.
  rewrite E, H2 in H1.
  destruct (find_method c mname) as [fd|], (find_method c' mname) as [fd'|];
    try discriminate; [|reflexivity].
  injection H1 as H1.
  now rewrite <- (call_function_strip fd), <- (call_function_strip fd'), H1.
Qed.

Lemma construct_strip (c c' : stmt) (pos : list value)
    (kw : list (string * value)) :
  class_ok c = true → class_ok c' = true →
  abstract_methods c = [] → abstract_methods c' = [] →
  strip_stmt c = strip_stmt c' →
  ∀ σ, construct getattr_ext c pos kw σ = construct getattr_ext c' pos kw σ.
Proof.
  intros Hok Hok' Ha Ha' E. unfold construct. rewrite Hok, Hok', Ha, Ha'.
  assert (Hn : class_name c = class_name c').
  { apply (f_equal class_name) in E. destruct c, c'; exact E. }
  rewrite Hn. unfold bind. intros σ.
  destruct (new_instance (class_name c') σ) as [[self|e|] σ']; try reflexivity.
  now rewrite (call_method_strip c c' "__init__" self pos kw Hok Hok' E).
Qed.

End contexts.

Section ast_py.

Context `{SetOrder}.
Context {W : Type} (getattr_ext : nat → string → option (@callable W)).

Lemma visitor_class_run (l : list node_args) (m : Module_) (g : gset string) :
  visitor_class (run l m g).1
  = ClassDef "ASTVisitor" [Name "ABC" (Some Load)] []
      (visit_def <$> set_iter (g ∪ list_to_set (visit_names l))) [].
Proof.
  rewrite run_eq. unfold visitor_class. cbn [fst body]. now rewrite last_snoc.
Qed.

(** X14.  AST.py as checked in is what [main] generates: the same node
    classes in the same order, a visitor with the same name, base and
    methods, and the same imports.  They differ only in what the printed
    text does not fix or the formatter may change: expression contexts,
    the order of the visitor's methods (the iteration order of a set) and
    the order of the names in an import. *)
Theorem AST_py_in_sync :
  let gen := (main file_module visitor_names_init).1 in
  List.map strip_stmt (node_definitions gen)
  = List.map strip_stmt (node_definitions AST_py)
  ∧ class_name (visitor_class gen) = class_name (visitor_class AST_py)
  ∧ class_bases (visitor_class gen) = class_bases (visitor_class AST_py)
  ∧ class_body (visitor_class gen) ≡ₚ class_body (visitor_class AST_py)
  ∧ Forall2 (λ s s', import_module s = import_module s'
                     ∧ is_Some (import_module s)
                     ∧ import_names s ≡ₚ import_names s')
      (take 3 (body gen)) (take 3 (body AST_py))
  ∧ length (body gen) = length (body AST_py).
Proof.
  intros gen. subst gen. rewrite main_eq.
  split; [rewrite node_definitions_run; vm_compute; reflexivity|].
  rewrite visitor_class_run. cbn [class_name class_bases class_body].
  split; [reflexivity|]. split; [reflexivity|]. split.
  - change (class_body (visitor_class AST_py))
      with (visit_def <$> ["Do"; "Module"; "While"; "AST"; "If"; "Block"]).
    rewrite set_iter_perm. unfold visitor_names_init.
    rewrite (left_id_L ∅ (∪)).
    rewrite elements_list_to_set
      by (apply (bool_decide_unpack _); vm_compute; exact I).
    apply fmap_Permutation.
    change (visit_names main_args)
      with ["AST"; "Module"; "Block"; "If"; "While"; "Do"].
    apply NoDup_Permutation.
    + apply (bool_decide_unpack _). vm_compute. exact I.
    + apply (bool_decide_unpack _). vm_compute. exact I.
    + intros x. rewrite !elem_of_cons, !elem_of_nil. tauto.
  - split.
    + rewrite run_eq. cbn [fst file_module body app take AST_py].
      repeat constructor; try (eexists; reflexivity).
    + rewrite run_eq. cbn [fst body].
      rewrite !length_app, length_fmap. reflexivity.
Qed.

(** Each node class of AST.py is, up to contexts, the class the matching
    call of [main] generates; the compiler takes both. *)
Lemma AST_py_classes :
  Forall2 (λ c a, strip_stmt c = strip_stmt (node_class a)
                  ∧ class_name c = a_name a
                  ∧ annotations c = default [] (a_fields a)
                  ∧ class_ok c = true ∧ class_ok (node_class a) = true
                  ∧ (a_name a = "AST"
                     ∨ abstract_methods c = []
                       ∧ abstract_methods (node_class a) = []))
    (node_definitions AST_py) main_args.
Proof.
  let l := eval vm_compute in (node_definitions AST_py) in
  change (node_definitions AST_py) with l.
  unfold main_args.
  repeat (apply List.Forall2_cons); try apply List.Forall2_nil;
    repeat (split; [vm_compute; reflexivity|]);
    first [left; reflexivity | right; split; vm_compute; reflexivity].
Qed.

Lemma main_args_facts :
  Forall (λ a, a_generate_visit a = true
               ∧ "visit_" +:+ a_name a ∈ method_names (visitor_class AST_py)
               ∧ (a_name a = "AST"
                  ∨ a_generate_init a = true
                    ∧ default [] (a_fields a) ≠ []
                    ∧ NoDup ("self" :: (default [] (a_fields a)).*1)
                    ∧ fields_ok (default [] (a_fields a)) = true))
    main_args.
Proof.
  repeat constructor; try (now left);
    try (apply (bool_decide_unpack _); vm_compute; exact I);
    right; (split; [reflexivity|]); (split; [discriminate|]);
    (split; [|reflexivity]); apply (bool_decide_unpack _); vm_compute; exact I.
Qed.

Lemma AST_py_class_args (c : stmt) :
  c ∈ node_definitions AST_py →
  ∃ a, strip_stmt c = strip_stmt (node_class a)
       ∧ class_name c = a_name a
       ∧ annotations c = default [] (a_fields a)
       ∧ class_ok c = true ∧ class_ok (node_class a) = true
       ∧ (a_name a = "AST"
          ∨ abstract_methods c = [] ∧ abstract_methods (node_class a) = [])
       ∧ a_generate_visit a = true
       ∧ "visit_" +:+ a_name a ∈ method_names (visitor_class AST_py)
       ∧ (a_name a = "AST"
          ∨ a_generate_init a = true
            ∧ default [] (a_fields a) ≠ []
            ∧ NoDup ("self" :: (default [] (a_fields a)).*1)
            ∧ fields_ok (default [] (a_fields a)) = true).
Proof.
  intros [i Hi]%list_elem_of_lookup_1.
  destruct (Forall2_lookup_l _ _ _ _ _ AST_py_classes Hi)
    as (a & Ha & Hs & Hn & Hann & Hok & Hok' & Habs).
  pose proof (Forall_lookup_1 _ _ _ _ main_args_facts Ha) as (Hv & Hm & Hi').
  exists a. auto 15.
Qed.

(** X15.  In AST.py every node class dispatches to the visitor method
    named after itself, and [ASTVisitor] declares that method; conversely
    every method [ASTVisitor] declares is the target of a node class. *)
Theorem AST_py_dispatch (c : stmt) (node V : value) (pos : list value)
    (kw : list (string * value)) (σ : @state W) :
  c ∈ node_definitions AST_py →
  NoDup kw.*1 → "self" ∉ kw.*1 → "visitor" ∉ kw.*1 →
  call_method getattr_ext c "accept" node (V :: pos) kw σ
  = call_attr getattr_ext V ("visit_" +:+ class_name c) (node :: pos) kw σ
  ∧ "visit_" +:+ class_name c ∈ method_names (visitor_class AST_py)
  ∧ Forall (λ mname, Exists (λ c', mname = "visit_" +:+ class_name c')
                       (node_definitions AST_py))
      (method_names (visitor_class AST_py)).
Proof.
  intros Hin Hnd Hs Hv.
  destruct (AST_py_class_args c Hin)
    as (a & Hstrip & Hn & _ & Hok & Hok' & _ & Hgv & Hm & _).
  split; [|split].
  - rewrite (call_method_strip getattr_ext c (node_class a) "accept" node
               (V :: pos) kw Hok Hok' Hstrip).
    unfold call_method. rewrite Hok'.
    destruct (node_class_spec a) as (_ & _ & _ & -> & _).
    rewrite Hgv, Hn. now apply accept_def_forwards.
  - now rewrite Hn.
  - apply (bool_decide_unpack _). vm_compute. exact I.
Qed.

Lemma construct_with_init (c : stmt) (fs : list (string * string))
    (vs : list value) (σ : @state W) :
  class_ok c = true → abstract_methods c = [] →
  find_method c "__init__" = Some (init_def fs) →
  fs ≠ [] → NoDup ("self" :: fs.*1) → fields_ok fs = true →
  length vs = length fs →
  construct getattr_ext c vs [] σ
  = (Returned (VRef (length (heap σ))),
     {| heap := heap σ ++ [{| obj_class := class_name c;
                              obj_dict := zip fs.*1 vs |}];
        world := world σ |}).
Proof.
  intros Hok Habs Hi Hne Hnd Hfs Hlen.
  unfold construct, call_method. rewrite Hok, Habs, Hi.
  unfold bind at 1, new_instance. unfold bind.
  rewrite (init_def_runs getattr_ext fs vs (length (heap σ)) (class_name c));
    cbn [heap world]; [|assumption..|now rewrite list_lookup_middle].
  unfold ret. f_equal. f_equal.
  replace (length (heap σ)) with (length (heap σ) + 0) at 1 by lia.
  now rewrite insert_app_r.
Qed.

(** X16.  In AST.py the constructor of every class but the root sets
    exactly the attributes the class declares, in the declared order, to
    the values passed; the root [AST] declares no field and defines no
    constructor. *)
Theorem AST_py_constructors (c : stmt) (vs : list value) (σ : @state W) :
  c ∈ node_definitions AST_py →
  (class_name c ≠ "AST" →
   length vs = length (annotations c) →
   construct getattr_ext c vs [] σ
   = (Returned (VRef (length (heap σ))),
      {| heap := heap σ ++ [{| obj_class := class_name c;
                               obj_dict := zip (annotations c).*1 vs |}];
         world := world σ |}))
  ∧ (class_name c = "AST" →
     annotations c = [] ∧ find_method c "__init__" = None).
Proof.
  intros Hin.
  destruct (AST_py_class_args c Hin)
    as (a & Hstrip & Hn & Hann & Hok & Hok' & Habs & _ & _ & Hi).
  split.
  - intros Hroot Hlen. rewrite Hn in Hroot.
    destruct Hi as [Hi|(Hgi & Hne & Hnd & Hfs)]; [contradiction|].
    destruct Habs as [Habs|[Habs Habs']]; [contradiction|].
    rewrite (construct_strip getattr_ext c (node_class a) vs [] Hok Hok'
               Habs Habs' Hstrip σ).
    rewrite Hann in *.
    rewrite (construct_with_init (node_class a) (default [] (a_fields a)));
      [|exact Hok'|exact Habs'
       |destruct (node_class_spec a) as (_ & _ & _ & _ & -> & _);
        now rewrite Hgi|exact Hne|exact Hnd|exact Hfs|exact Hlen].
    destruct (node_class_spec a) as (_ & -> & _). now rewrite Hn.
  - intros Hroot.
    assert (Hall : Forall (λ c, class_name c = "AST" →
                     annotations c = [] ∧ find_method c "__init__" = None)
                     (node_definitions AST_py)).
    { vm_compute. repeat constructor; intros; discriminate. }
    rewrite Forall_forall in Hall. now apply Hall.
Qed.

End ast_py.

(** ** Instances *)

Lemma visit_method_does_nothing_witness :
  let V : nat → string → option (@callable unit) := λ _ _, None in
  let g : gset string := {["Block"]} in
  let kw := [("depth", VInt 1)] in
  let σ := {| heap := []; world := () |} in
  "Block" ∈ g ∧ ("self" ∉ kw.*1) ∧ ("node" ∉ kw.*1)
  ∧ call_function V (visit_def "Block") [VExt 0; VRef 0; VInt 2] kw σ
    = (Returned VNone, σ).
Proof.
  intros V g kw σ.
  assert (H1 : "Block" ∈ g) by (apply (bool_decide_unpack _); vm_compute; exact I).
  assert (H2 : "self" ∉ kw.*1)
    by (apply (bool_decide_unpack _); vm_compute; exact I).
  assert (H3 : "node" ∉ kw.*1)
    by (apply (bool_decide_unpack _); vm_compute; exact I).
  split; [exact H1|]. split; [exact H2|]. split; [exact H3|].
  exact (proj2 (visit_method_does_nothing V file_module g "Block" (VExt 0)
                  (VRef 0) [VInt 2] kw σ H1 H2 H3)).
Defined.

Lemma accept_without_visitor_witness :
  let V : nat → string → option (@callable unit) := λ _ _, None in
  let kw := [("depth", VInt 1)] in
  let σ := {| heap := []; world := () |} in
  ("self" ∉ kw.*1) ∧ ("visitor" ∉ kw.*1)
  ∧ call_function V (accept_def "Block" false) [VRef 0] kw σ
    = (Raised TypeError, σ).
Proof.
  intros V kw σ.
  assert (H2 : "self" ∉ kw.*1)
    by (apply (bool_decide_unpack _); vm_compute; exact I).
  assert (H3 : "visitor" ∉ kw.*1)
    by (apply (bool_decide_unpack _); vm_compute; exact I).
  split; [exact H2|]. split; [exact H3|].
  exact (accept_without_visitor V "Block" false (VRef 0) kw σ H2 H3).
Defined.

Lemma accept_without_method_witness :
  let V : nat → string → option (@callable unit) := λ _ _, None in
  let kw : list (string * value) := [] in
  let σ := {| heap := [{| obj_class := "Block";
                          obj_dict := [("label", VNone);
                                       ("body", VList [])] |}];
              world := () |} in
  let m := (new_node file_module "AST" None "ABC" false true true
              visitor_names_init).1 in
  let fields := Some [("label", "Optional[str]"); ("body", "list[AST]")] in
  ∃ e, load_module (new_node m "Block" fields "AST" true false true
                      {["AST"]}).1 = Returned e
       ∧ NoDup kw.*1 ∧ ("self" ∉ kw.*1) ∧ ("visitor" ∉ kw.*1)
       ∧ (VExt 0 = VNone
          ∨ ∃ h, VExt 0 = VExt h ∧ V h ("visit_" +:+ "Block") = None)
       ∧ call_method_in V e "Block" "accept" (VRef 0) [VExt 0] kw σ
         = (Raised AttributeError, σ).
Proof.
  intros V kw σ m fields.
  assert (Hl : ∃ e, load_module (new_node m "Block" fields "AST" true false
                                   true {["AST"]}).1 = Returned e)
    by (eexists; vm_compute; reflexivity).
  destruct Hl as [e Hl]. exists e.
  assert (H1 : NoDup kw.*1) by constructor.
  assert (H2 : "self" ∉ kw.*1)
    by (apply (bool_decide_unpack _); vm_compute; exact I).
  assert (H3 : "visitor" ∉ kw.*1)
    by (apply (bool_decide_unpack _); vm_compute; exact I).
  assert (H4 : VExt 0 = VNone
               ∨ ∃ h, VExt 0 = VExt h ∧ V h ("visit_" +:+ "Block") = None)
    by (right; exists 0; split; reflexivity).
  split; [exact Hl|]. split; [exact H1|]. split; [exact H2|].
  split; [exact H3|]. split; [exact H4|].
  exact (accept_without_method V m "Block" fields "AST" true false
           {["AST"]} e (VRef 0) (VExt 0) [] kw σ Hl H1 H2 H3 H4).
Defined.

Lemma accept_visitor_by_keyword_witness :
  let V : nat → string → option (@callable unit) :=
    λ _ attr, Some (λ _ _, ret (VStr attr)) in
  let kw := [("depth", VInt 1)] in
  let σ := {| heap := []; world := () |} in
  NoDup kw.*1 ∧ ("self" ∉ kw.*1) ∧ ("visitor" ∉ kw.*1)
  ∧ call_function V (accept_def "Block" false) [VRef 0]
      (("visitor", VExt 0) :: kw) σ
    = call_attr V (VExt 0) ("visit_" +:+ "Block") [VRef 0] kw σ.
Proof.
  intros V kw σ.
  assert (H1 : NoDup kw.*1)
    by (apply (bool_decide_unpack _); vm_compute; exact I).
  assert (H2 : "self" ∉ kw.*1)
    by (apply (bool_decide_unpack _); vm_compute; exact I).
  assert (H3 : "visitor" ∉ kw.*1)
    by (apply (bool_decide_unpack _); vm_compute; exact I).
  split; [exact H1|]. split; [exact H2|]. split; [exact H3|].
  exact (accept_visitor_by_keyword V "Block" false (VRef 0) (VExt 0) kw σ
           H1 H2 H3).
Defined.

Lemma constructor_by_keyword_witness :
  let V : nat → string → option (@callable unit) := λ _ _, None in
  let fields := [("label", "Optional[str]"); ("body", "list[AST]")] in
  let vs := [VNone; VList []] in
  let kw := [("body", VList []); ("label", VNone)] in
  let σ := {| heap := [{| obj_class := "Block"; obj_dict := [] |}];
              world := () |} in
  fields ≠ [] ∧ NoDup ("self" :: fields.*1) ∧ fields_ok fields = true
  ∧ length vs = length fields
  ∧ kw ≡ₚ zip fields.*1 vs
  ∧ heap σ !! 0 = Some {| obj_class := "Block"; obj_dict := [] |}
  ∧ call_function V (init_def fields) [VRef 0] kw σ
    = call_function V (init_def fields) (VRef 0 :: vs) [] σ.
Proof.
  intros V fields vs kw σ.
  assert (H0 : fields ≠ []) by discriminate.
  assert (H1 : NoDup ("self" :: fields.*1))
    by (apply (bool_decide_unpack _); vm_compute; exact I).
  assert (Hok : fields_ok fields = true) by (vm_compute; reflexivity).
  assert (H2 : length vs = length fields) by reflexivity.
  assert (H3 : kw ≡ₚ zip fields.*1 vs) by apply perm_swap.
  assert (H4 : heap σ !! 0 = Some {| obj_class := "Block"; obj_dict := [] |})
    by reflexivity.
  split; [exact H0|]. split; [exact H1|]. split; [exact Hok|].
  split; [exact H2|]. split; [exact H3|]. split; [exact H4|].
  exact (proj1 (constructor_by_keyword V fields vs kw 0 "Block" σ
                  H0 H1 Hok H2 H3 H4)).
Defined.

Lemma constructor_frame_witness :
  let V : nat → string → option (@callable unit) := λ _ _, None in
  let fields := [("body", "list[AST]")] in
  let o := {| obj_class := "Module";
              obj_dict := [("body", VNone); ("path", VStr "a.dust")] |} in
  let σ := {| heap := [o]; world := () |} in
  fields ≠ [] ∧ NoDup ("self" :: fields.*1) ∧ fields_ok fields = true
  ∧ length [VList []] = length fields
  ∧ heap σ !! 0 = Some o
  ∧ ∃ d, call_function V (init_def fields) [VRef 0; VList []] [] σ
         = (Returned VNone,
            {| heap := <[0 := {| obj_class := "Module"; obj_dict := d |}]>
                         (heap σ);
               world := () |})
         ∧ dict_get d "path" = Some (VStr "a.dust").
Proof.
  intros V fields o σ.
  assert (H0 : fields ≠ []) by discriminate.
  assert (H1 : NoDup ("self" :: fields.*1))
    by (apply (bool_decide_unpack _); vm_compute; exact I).
  assert (Hok : fields_ok fields = true) by (vm_compute; reflexivity).
  assert (H2 : length [VList []] = length fields) by reflexivity.
  assert (H3 : heap σ !! 0 = Some o) by reflexivity.
  split; [exact H0|]. split; [exact H1|]. split; [exact Hok|].
  split; [exact H2|]. split; [exact H3|].
  destruct (constructor_frame V fields [VList []] 0 o σ H0 H1 Hok H2 H3)
    as (d & Hrun & _ & Hkeep & _).
  exists d. split; [exact Hrun|].
  rewrite Hkeep; [reflexivity|].
  apply (bool_decide_unpack _). vm_compute. exact I.
Defined.

Lemma AST_py_dispatch_witness :
  let V : nat → string → option (@callable unit) :=
    λ _ attr, Some (λ _ _, ret (VStr attr)) in
  let c := AST_py_labelled "While" "visit_While" in
  let kw : list (string * value) := [] in
  let σ := {| heap := []; world := () |} in
  c ∈ node_definitions AST_py
  ∧ NoDup kw.*1 ∧ ("self" ∉ kw.*1) ∧ ("visitor" ∉ kw.*1)
  ∧ call_method V c "accept" (VRef 0) [VExt 0] kw σ
    = call_attr V (VExt 0) ("visit_" +:+ class_name c) [VRef 0] kw σ.
Proof.
  intros V c kw σ.
  assert (H0 : c ∈ node_definitions AST_py)
    by (apply (list_elem_of_lookup_2 _ 4); reflexivity).
  assert (H1 : NoDup kw.*1) by constructor.
  assert (H2 : "self" ∉ kw.*1)
    by (apply (bool_decide_unpack _); vm_compute; exact I).
  assert (H3 : "visitor" ∉ kw.*1)
    by (apply (bool_decide_unpack _); vm_compute; exact I).
  split; [exact H0|]. split; [exact H1|]. split; [exact H2|].
  split; [exact H3|].
  exact (proj1 (AST_py_dispatch V c (VRef 0) (VExt 0) [] kw σ H0 H1 H2 H3)).
Defined.

Lemma AST_py_constructors_witness :
  let V : nat → string → option (@callable unit) := λ _ _, None in
  let c := AST_py_labelled "Do" "visit_Do" in
  let σ := {| heap := []; world := () |} in
  c ∈ node_definitions AST_py
  ∧ construct V c [VStr "outer"; VList []] [] σ
    = (Returned (VRef 0),
       {| heap := [{| obj_class := "Do";
                      obj_dict := [("label", VStr "outer");
                                   ("body", VList [])] |}];
          world := () |}).
Proof.
  intros V c σ.
  assert (H0 : c ∈ node_definitions AST_py)
    by (apply (list_elem_of_lookup_2 _ 5); reflexivity).
  split; [exact H0|].
  refine (proj1 (AST_py_constructors V c [VStr "outer"; VList []] σ H0) _ _).
  - discriminate.
  - reflexivity.
Defined.
